(** * E-commerce sales analysis: cleaning, aggregation and insight extraction

    A shallow embedding of [src/data_cleaner.py], [src/analyzer.py] and the
    extraction part of [src/insights_generator.py].

    Conventions of the embedding.
    - A [DataFrame] is the list of its rows, in index order.  A row carries
      the twelve columns the loader declares; [Customer_Age_Group] is the
      only column the data source leaves blank, so it is the only optional
      one.  The six columns the cleaner adds are optional as a block.
    - Floating-point columns are exact rationals ([Q]); a float that is not
      a finite number (the [NaN] of an empty mean, the result of a division
      by zero) is [None].  Comparison of floats is comparison of values
      ([Qeq], [Qlt]), never of representations.
    - [print] calls of the cleaner are kept as the three counts they print.
    - The library calls are modelled by what the library documents:
      [groupby] yields its groups in ascending key order, [quantile]
      interpolates linearly between order statistics, [round(2)] rounds
      half to even on the second decimal, and [sort_values] (default
      [kind='quicksort'], not a stable sort) is any function that returns
      its input sorted on the chosen column; it is a parameter of every
      definition that calls it. *)

From Stdlib Require Import String Ascii ZArith QArith Qround Qabs Lqa Lia Bool List.
From Stdlib Require Import Permutation Sorted OrdersEx RelationClasses Morphisms.
Import ListNotations.

Local Open Scope string_scope.
Local Open Scope Q_scope.
Local Open Scope list_scope.

(* ===================================================================== *)
(** * Numeric helpers (NumPy / pandas column operations)                  *)
(* ===================================================================== *)

Module Numeric.

(** [Series.sum()]: zero on the empty column. *)
Definition sum (l : list Q) : Q := fold_right Qplus 0 l.

Definition sumZ (l : list Z) : Z := fold_right Z.add 0%Z l.

Definition sum_nat (l : list nat) : nat := fold_right Nat.add 0%nat l.

(** Float division: dividing by zero gives no finite number. *)
Definition fdiv (a b : Q) : option Q :=
  if Qeq_bool b 0 then None else Some (a / b).

(** [Series.mean()]: [NaN] on the empty column. *)
Definition mean (l : list Q) : option Q :=
  fdiv (sum l) (inject_Z (Z.of_nat (length l))).

(** [numpy.rint]: nearest integer, halves to the even neighbour. *)
Definition rint (q : Q) : Z :=
  let f := Qfloor q in
  match Qcompare (q - inject_Z f) (1 # 2) with
  | Lt => f
  | Gt => (f + 1)%Z
  | Eq => if Z.even f then f else (f + 1)%Z
  end.

(** [round(2)]: [rint (x * 100) / 100]. *)
Definition round2 (q : Q) : Q := Qmake (rint (q * 100)) 100.

Definition round2_opt (q : option Q) : option Q := option_map round2 q.

(** Ascending sort of a float column (used by [quantile] only, where the
    relative order of equal values is not observable). *)
Fixpoint insert_asc (x : Q) (l : list Q) : list Q :=
  match l with
  | [] => [x]
  | y :: t => if Qle_bool x y then x :: l else y :: insert_asc x t
  end.

Definition sort_asc (l : list Q) : list Q := fold_right insert_asc [] l.

(** Linear interpolation at position [q * (n - 1)] of a sorted column,
    between the two neighbouring order statistics. *)
Definition interpolate (s : list Q) (q : Q) : Q :=
  let n := length s in
  let pos := q * inject_Z (Z.of_nat (n - 1)) in
  let i := Z.to_nat (Qfloor pos) in
  let frac := pos - inject_Z (Qfloor pos) in
  let lo := nth i s 0 in
  let hi := nth (Nat.min (i + 1) (n - 1)) s 0 in
  lo + (hi - lo) * frac.

(** [Series.quantile(q)] with the default [interpolation='linear'];
    [NaN] on the empty column. *)
Definition quantile (l : list Q) (q : Q) : option Q :=
  match l with
  | [] => None
  | _ :: _ => Some (interpolate (sort_asc l) q)
  end.

(** [Series.nunique()] for a column with decidable equality. *)
Fixpoint unique {A} (eqb : A -> A -> bool) (l : list A) : list A :=
  match l with
  | [] => []
  | x :: t => x :: filter (fun y => negb (eqb x y)) (unique eqb t)
  end.

Definition nunique {A} (eqb : A -> A -> bool) (l : list A) : nat :=
  length (unique eqb l).

End Numeric.
Import Numeric.

(* ===================================================================== *)
(** * Rows and frames                                                     *)
(* ===================================================================== *)

(** A parsed [Order_Date] (calendar part of the timestamp). *)
Record Timestamp := mkTimestamp {
  ts_year : Z;
  ts_month : Z;
  ts_day : Z
}.

Definition Timestamp_eqb (a b : Timestamp) : bool :=
  Z.eqb (ts_year a) (ts_year b) && Z.eqb (ts_month a) (ts_month b)
  && Z.eqb (ts_day a) (ts_day b).

(** [dt.strftime('%B')]. *)
Definition month_name (m : Z) : string :=
  nth (Z.to_nat (m - 1))
      ["January"; "February"; "March"; "April"; "May"; "June"; "July";
       "August"; "September"; "October"; "November"; "December"] EmptyString.

(** [dt.quarter]. *)
Definition quarter_of (m : Z) : Z := ((m - 1) / 3 + 1)%Z.

(** [dt.day_name()]: Gregorian day of the week. *)
Definition day_name (d : Timestamp) : string :=
  let y := if (ts_month d <? 3)%Z then (ts_year d - 1)%Z else ts_year d in
  let t := nth (Z.to_nat (ts_month d - 1))
               [0; 3; 2; 5; 0; 3; 5; 1; 4; 6; 2; 4]%Z 0%Z in
  let w := ((y + y / 4 - y / 100 + y / 400 + t + ts_day d) mod 7)%Z in
  nth (Z.to_nat w)
      ["Sunday"; "Monday"; "Tuesday"; "Wednesday"; "Thursday"; "Friday";
       "Saturday"] EmptyString.

(** The columns added by step 5 of the cleaner. *)
Record Derived := mkDerived {
  Year : Z;
  Month : Z;
  Month_Name : string;
  Quarter : Z;
  Day_of_Week : string;
  Revenue_After_Discount : Q
}.

Record Row := mkRow {
  Order_ID : string;
  Order_Date : Timestamp;
  Customer_ID : string;
  Product_Name : string;
  Category : string;
  Quantity : Z;
  Unit_Price : Q;
  Total_Amount : Q;
  Discount : Q;
  Region : string;
  Payment_Method : string;
  Customer_Age_Group : option string;
  derived : option Derived
}.

Definition DataFrame := list Row.

Definition option_eqb {A} (eqb : A -> A -> bool) (a b : option A) : bool :=
  match a, b with
  | None, None => true
  | Some x, Some y => eqb x y
  | _, _ => false
  end.

Definition Derived_eqb (a b : Derived) : bool :=
  Z.eqb (Year a) (Year b) && Z.eqb (Month a) (Month b)
  && String.eqb (Month_Name a) (Month_Name b)
  && Z.eqb (Quarter a) (Quarter b)
  && String.eqb (Day_of_Week a) (Day_of_Week b)
  && Qeq_bool (Revenue_After_Discount a) (Revenue_After_Discount b).

(** Row equality as [DataFrame.duplicated] sees it: every column equal. *)
Definition Row_eqb (a b : Row) : bool :=
  String.eqb (Order_ID a) (Order_ID b)
  && Timestamp_eqb (Order_Date a) (Order_Date b)
  && String.eqb (Customer_ID a) (Customer_ID b)
  && String.eqb (Product_Name a) (Product_Name b)
  && String.eqb (Category a) (Category b)
  && Z.eqb (Quantity a) (Quantity b)
  && Qeq_bool (Unit_Price a) (Unit_Price b)
  && Qeq_bool (Total_Amount a) (Total_Amount b)
  && Qeq_bool (Discount a) (Discount b)
  && String.eqb (Region a) (Region b)
  && String.eqb (Payment_Method a) (Payment_Method b)
  && option_eqb String.eqb (Customer_Age_Group a) (Customer_Age_Group b)
  && option_eqb Derived_eqb (derived a) (derived b).

Definition set_Total_Amount (r : Row) (v : Q) : Row :=
  mkRow (Order_ID r) (Order_Date r) (Customer_ID r) (Product_Name r)
        (Category r) (Quantity r) (Unit_Price r) v (Discount r) (Region r)
        (Payment_Method r) (Customer_Age_Group r) (derived r).

Definition set_Customer_Age_Group (r : Row) (v : option string) : Row :=
  mkRow (Order_ID r) (Order_Date r) (Customer_ID r) (Product_Name r)
        (Category r) (Quantity r) (Unit_Price r) (Total_Amount r)
        (Discount r) (Region r) (Payment_Method r) v (derived r).

Definition set_derived (r : Row) (v : option Derived) : Row :=
  mkRow (Order_ID r) (Order_Date r) (Customer_ID r) (Product_Name r)
        (Category r) (Quantity r) (Unit_Price r) (Total_Amount r)
        (Discount r) (Region r) (Payment_Method r) (Customer_Age_Group r) v.

(* ===================================================================== *)
(** * data_cleaner.py                                                     *)
(* ===================================================================== *)

Module Cleaner.

(** The three counts the cleaner prints ("Filled n missing values",
    "Removed n duplicate records", "Capped n outliers"; the "No ... found"
    lines stand for a count of zero). *)
Record CleaningReport := mkReport {
  missing_filled : nat;
  duplicates_removed : nat;
  outliers_capped : nat
}.

Definition count_true (l : list bool) : nat :=
  length (filter (fun b => b) l).

(** [df.isnull()], one flag per row (only one column can be blank). *)
Definition isnull (df : DataFrame) : list bool :=
  map (fun r => match Customer_Age_Group r with
                | None => true
                | Some _ => false
                end) df.

(** [df['Customer_Age_Group'].fillna(label)]. *)
Definition fillna (label : string) (df : DataFrame) : DataFrame :=
  map (fun r => match Customer_Age_Group r with
                | None => set_Customer_Age_Group r (Some label)
                | Some _ => r
                end) df.

(** [df.duplicated()]: a row is flagged when an equal row precedes it. *)
Fixpoint duplicated_from (seen : list Row) (df : DataFrame) : list bool :=
  match df with
  | [] => []
  | r :: t => existsb (Row_eqb r) seen :: duplicated_from (r :: seen) t
  end.

Definition duplicated (df : DataFrame) : list bool := duplicated_from [] df.

(** [df.drop_duplicates()]: the rows [duplicated] does not flag. *)
Fixpoint drop_duplicates_from (seen : list Row) (df : DataFrame) : DataFrame :=
  match df with
  | [] => []
  | r :: t =>
      if existsb (Row_eqb r) seen
      then drop_duplicates_from (r :: seen) t
      else r :: drop_duplicates_from (r :: seen) t
  end.

Definition drop_duplicates (df : DataFrame) : DataFrame :=
  drop_duplicates_from [] df.

Definition totals (df : DataFrame) : list Q := map Total_Amount df.

(** Lines 50-54: [(lower_bound, upper_bound)], [None] when the quartiles
    are [NaN]. *)
Definition iqr_bounds (df : DataFrame) : option (Q * Q) :=
  match quantile (totals df) (1 # 4), quantile (totals df) (3 # 4) with
  | Some Q1, Some Q3 =>
      let IQR := Q3 - Q1 in
      Some (Q1 - (3 # 2) * IQR, Q3 + (3 # 2) * IQR)
  | _, _ => None
  end.

(** [df.loc[df['Total_Amount'] < bound, 'Total_Amount'] = bound]. *)
Definition cap_below (bound : Q) (df : DataFrame) : DataFrame :=
  map (fun r => if Qlt_le_dec (Total_Amount r) bound
                then set_Total_Amount r bound else r) df.

(** [df.loc[df['Total_Amount'] > bound, 'Total_Amount'] = bound]. *)
Definition cap_above (bound : Q) (df : DataFrame) : DataFrame :=
  map (fun r => if Qlt_le_dec bound (Total_Amount r)
                then set_Total_Amount r bound else r) df.

(** Lines 56-57: the outlier mask. *)
Definition is_outlier (lower_bound upper_bound : Q) (r : Row) : bool :=
  (if Qlt_le_dec (Total_Amount r) lower_bound then true else false)
  || (if Qlt_le_dec upper_bound (Total_Amount r) then true else false).

(** Step 5: the derived columns of one row. *)
Definition derive (r : Row) : Derived :=
  mkDerived (ts_year (Order_Date r))
            (ts_month (Order_Date r))
            (month_name (ts_month (Order_Date r)))
            (quarter_of (ts_month (Order_Date r)))
            (day_name (Order_Date r))
            (Total_Amount r - Discount r).

Definition add_derived (df : DataFrame) : DataFrame :=
  map (fun r => set_derived r (Some (derive r))) df.

(** Step 1 (lines 30-37): the frame and the count it prints. *)
Definition handle_missing (df_clean : DataFrame) : DataFrame * nat :=
  let initial_missing := count_true (isnull df_clean) in
  if (0 <? initial_missing)%nat
  then (fillna "Unknown" df_clean, initial_missing)
  else (df_clean, initial_missing).

(** Step 2 (lines 41-46). *)
Definition remove_duplicates (df_clean : DataFrame) : DataFrame * nat :=
  let duplicates := count_true (duplicated df_clean) in
  if (0 <? duplicates)%nat
  then (drop_duplicates df_clean, duplicates)
  else (df_clean, duplicates).

(** Step 3 (lines 50-65).  With [NaN] bounds both comparisons of the
    mask are false on every row. *)
Definition handle_outliers (df_clean : DataFrame) : DataFrame * nat :=
  match iqr_bounds df_clean with
  | Some (lower_bound, upper_bound) =>
      let outliers :=
        count_true (map (is_outlier lower_bound upper_bound) df_clean) in
      if (0 <? outliers)%nat
      then (cap_above upper_bound (cap_below lower_bound df_clean), outliers)
      else (df_clean, outliers)
  | None => (df_clean, 0%nat)
  end.

(** The frame the quartiles are computed over: the input after steps 1
    and 2. *)
Definition deduplicated (df : DataFrame) : DataFrame :=
  fst (remove_duplicates (fst (handle_missing df))).

(** Step 4 changes nothing: [Order_Date] and [Quantity] already have
    their types.  Step 5 adds the derived columns. *)
Definition clean_sales_data (df : DataFrame) : DataFrame * CleaningReport :=
  let df_clean := df in
  let '(df_clean, initial_missing) := handle_missing df_clean in
  let '(df_clean, duplicates) := remove_duplicates df_clean in
  let '(df_clean, outliers) := handle_outliers df_clean in
  let df_clean := add_derived df_clean in
  (df_clean, mkReport initial_missing duplicates outliers).

End Cleaner.

(* ===================================================================== *)
(** * Exceptions                                                          *)
(* ===================================================================== *)

(** The exceptions the modelled code can raise: a label missing from a
    frame, a position outside an index, an arg-max of an empty column. *)
Inductive exn := KeyError | IndexError | ValueError.

Inductive result (A : Type) :=
| Ok (a : A)
| Raise (e : exn).
Arguments Ok {A} a.
Arguments Raise {A} e.

Definition bind {A B} (m : result A) (k : A -> result B) : result B :=
  match m with
  | Ok a => k a
  | Raise e => Raise e
  end.

Notation "x <- m ;; k" := (bind m (fun x => k))
  (at level 61, m at next level, right associativity).

Fixpoint mapM {A B} (f : A -> result B) (l : list A) : result (list B) :=
  match l with
  | [] => Ok []
  | x :: t => y <- f x ;; ys <- mapM f t ;; Ok (y :: ys)
  end.

(* ===================================================================== *)
(** * Library interfaces used by the analyzer                             *)
(* ===================================================================== *)

(** Group keys are ordered: [groupby] sorts them. *)
Class Key (K : Type) := { key_compare : K -> K -> comparison }.

#[global] Instance Key_string : Key string :=
  {| key_compare := String_as_OT.compare |}.

#[global] Instance Key_Z : Key Z := {| key_compare := Z.compare |}.

(** Tuples compare lexicographically. *)
#[global] Instance Key_pair {K1 K2} `{Key K1} `{Key K2} : Key (K1 * K2) :=
  {| key_compare := fun a b =>
       match key_compare (fst a) (fst b) with
       | Eq => key_compare (snd a) (snd b)
       | c => c
       end |}.

Definition key_lt {K} `{Key K} (a b : K) : Prop := key_compare a b = Lt.

(** [sort_values(by, ascending=False)]: some descending sort on one float
    column.  The analyzer never passes [kind], so the library default
    ['quicksort'] applies, and the library documents only ['mergesort'] and
    ['stable'] as stable: which rows come first among equal values is up
    to the implementation. *)
Class Sorter := {
  sort_values : forall {A : Type}, (A -> Q) -> list A -> list A
}.

(** What every implementation provides: the rows, rearranged so that the
    column is in descending order. *)
Definition sorter_ok (S : Sorter) : Prop :=
  forall (A : Type) (by_ : A -> Q) (l : list A),
    Permutation l (sort_values by_ l) /\
    StronglySorted (fun x y => by_ y <= by_ x) (sort_values by_ l).

(** What only a stable implementation provides: rows with equal values
    keep their relative order. *)
Definition sorter_stable (S : Sorter) : Prop :=
  forall (A : Type) (by_ : A -> Q) (l : list A) (v : Q),
    filter (fun x => Qeq_bool (by_ x) v) (sort_values by_ l) =
    filter (fun x => Qeq_bool (by_ x) v) l.

(** A stable implementation: insertion sort. *)
Fixpoint insert_desc {A} (by_ : A -> Q) (x : A) (l : list A) : list A :=
  match l with
  | [] => [x]
  | y :: t =>
      if Qlt_le_dec (by_ x) (by_ y) then y :: insert_desc by_ x t
      else x :: l
  end.

Definition insertion_sort_desc {A} (by_ : A -> Q) (l : list A) : list A :=
  fold_right (insert_desc by_) [] l.

Definition stable_sorter : Sorter :=
  {| sort_values := fun A by_ l => insertion_sort_desc by_ l |}.

(** An implementation that is not stable: equal values come out in the
    reverse of their input order. *)
Definition reversing_sorter : Sorter :=
  {| sort_values := fun A by_ l => insertion_sort_desc by_ (rev l) |}.

(** [df.head(n)]: the first [n] rows; for negative [n], all rows but the
    last [-n]. *)
Definition head {A} (n : Z) (l : list A) : list A :=
  if (0 <=? n)%Z then firstn (Z.to_nat n) l
  else firstn (length l - Z.to_nat (- n)) l.

(** ['count'] aggregation: the number of cells of the column that are not
    blank.  The columns it is applied to have no blank cells. *)
Definition count {A} (col : list A) : nat := length col.

(** [df.groupby(by)]: groups in ascending key order, each with its rows in
    frame order. *)
Fixpoint group_insert {K} `{Key K} (k : K) (r : Row)
         (gs : list (K * list Row)) : list (K * list Row) :=
  match gs with
  | [] => [(k, [r])]
  | (k', rows) :: t =>
      match key_compare k k' with
      | Lt => (k, [r]) :: gs
      | Eq => (k', rows ++ [r]) :: t
      | Gt => (k', rows) :: group_insert k r t
      end
  end.

Definition groupby {K} `{Key K} (by_ : Row -> K) (df : DataFrame)
  : list (K * list Row) :=
  fold_left (fun gs r => group_insert (by_ r) r gs) df [].

(** [float * 100] on a possibly non-finite float. *)
Definition times100 (x : option Q) : option Q :=
  option_map (fun v => v * 100) x.

(* ===================================================================== *)
(** * analyzer.py                                                         *)
(* ===================================================================== *)

Module Analyzer.

(** The dictionary [calculate_kpis] returns. *)
Module Kpis.
Record t := mk {
  Total_Revenue : Q;
  Total_Orders : nat;
  Average_Order_Value : option Q;
  Total_Quantity_Sold : Z;
  Average_Quantity_per_Order : option Q;
  Total_Discount_Given : Q;
  Discount_Rate : option Q;
  Unique_Customers : nat;
  Unique_Products : nat;
  Unique_Categories : nat
}.
End Kpis.

(** Rows of [analyze_by_category] and [analyze_by_region]. *)
Module Revenue.
Record agg (K : Type) := mk {
  key : K;
  Total_Revenue : Q;
  Avg_Order_Value : option Q;
  Order_Count : nat;
  Total_Quantity : Z
}.
Arguments mk {K}.
Arguments key {K}.
Arguments Total_Revenue {K}.
Arguments Avg_Order_Value {K}.
Arguments Order_Count {K}.
Arguments Total_Quantity {K}.

(** The same row once the ['Revenue_Share_%'] column is added. *)
Record t (K : Type) := with_share {
  base : agg K;
  Revenue_Share_pct : option Q
}.
Arguments with_share {K}.
Arguments base {K}.
Arguments Revenue_Share_pct {K}.
End Revenue.

(** Rows of the three tables of [analyze_by_time]. *)
Module Period.
Record t (K : Type) := mk {
  key : K;
  Revenue : Q;
  Orders : nat;
  Quantity : Z
}.
Arguments mk {K}.
Arguments key {K}.
Arguments Revenue {K}.
Arguments Orders {K}.
Arguments Quantity {K}.
End Period.

Record TimeAnalysis := mkTimeAnalysis {
  monthly : list (Period.t (Z * Z));
  quarterly : list (Period.t (Z * Z));
  yearly : list (Period.t Z)
}.

(** Rows of [analyze_top_products]; the key is (Product_Name, Category). *)
Module Products.
Record t := mk {
  key : string * string;
  Total_Revenue : Q;
  Order_Count : nat;
  Total_Quantity : Z;
  Avg_Price : option Q
}.
End Products.

(** Rows of [analyze_customer_demographics]. *)
Module Demographics.
Record t := mk {
  key : string;
  Unique_Customers : nat;
  Total_Revenue : Q;
  Avg_Order_Value : option Q;
  Total_Orders : nat
}.
End Demographics.

(** Rows of [analyze_payment_methods]. *)
Module Payment.
Record agg := mk {
  key : string;
  Total_Revenue : Q;
  Transaction_Count : nat;
  Order_Count : nat
}.

(** The same row once the ['Usage_%'] column is added. *)
Record t := with_usage {
  base : agg;
  Usage_pct : option Q
}.
End Payment.

Definition Q_of_nat (n : nat) : Q := inject_Z (Z.of_nat n).

Definition calculate_kpis (df : DataFrame) : Kpis.t :=
  {| Kpis.Total_Revenue := sum (map Total_Amount df);
     Kpis.Total_Orders := length df;
     Kpis.Average_Order_Value := mean (map Total_Amount df);
     Kpis.Total_Quantity_Sold := sumZ (map Quantity df);
     Kpis.Average_Quantity_per_Order :=
       mean (map (fun r => inject_Z (Quantity r)) df);
     Kpis.Total_Discount_Given := sum (map Discount df);
     Kpis.Discount_Rate :=
       if Qlt_le_dec 0 (sum (map Total_Amount df))
       then times100 (fdiv (sum (map Discount df))
                           (sum (map Total_Amount df)))
       else Some 0;
     Kpis.Unique_Customers := nunique String.eqb (map Customer_ID df);
     Kpis.Unique_Products := nunique String.eqb (map Product_Name df);
     Kpis.Unique_Categories := nunique String.eqb (map Category df) |}.

(** [groupby(col).agg({'Total_Amount': ['sum', 'mean', 'count'],
    'Quantity': 'sum'}).round(2)], shared by the category and the region
    analysis. *)
Definition revenue_agg {K} `{Key K} (by_ : Row -> K) (df : DataFrame)
  : list (Revenue.agg K) :=
  map (fun g : K * list Row =>
         let rows := snd g in
         Revenue.mk (fst g)
                    (round2 (sum (map Total_Amount rows)))
                    (round2_opt (mean (map Total_Amount rows)))
                    (count (map Total_Amount rows))
                    (sumZ (map Quantity rows)))
      (groupby by_ df).

(** Lines 73-74 and 98-99: each row's share of the column total. *)
Definition add_revenue_share {K} (table : list (Revenue.agg K))
  : list (Revenue.t K) :=
  let total := sum (map Revenue.Total_Revenue table) in
  map (fun r =>
         Revenue.with_share r
           (round2_opt (times100 (fdiv (Revenue.Total_Revenue r) total))))
      table.

Definition analyze_by_category (S : Sorter) (df : DataFrame)
  : list (Revenue.t string) :=
  let category_analysis := revenue_agg Category df in
  let category_analysis :=
    sort_values Revenue.Total_Revenue category_analysis in
  add_revenue_share category_analysis.

Definition analyze_by_region (S : Sorter) (df : DataFrame)
  : list (Revenue.t string) :=
  let region_analysis := revenue_agg Region df in
  let region_analysis :=
    sort_values Revenue.Total_Revenue region_analysis in
  add_revenue_share region_analysis.

(** A frame that went through the cleaner has the derived columns; on
    any other frame the lookup of ['Year'] fails. *)
Definition with_derived (df : DataFrame) : result (list (Row * Derived)) :=
  mapM (fun r => match derived r with
                 | Some d => Ok (r, d)
                 | None => Raise KeyError
                 end) df.

Definition period_agg {K} `{Key K} (by_ : Row -> K) (df : DataFrame)
  : list (Period.t K) :=
  map (fun g : K * list Row =>
         let rows := snd g in
         Period.mk (fst g)
                   (round2 (sum (map Total_Amount rows)))
                   (count (map Total_Amount rows))
                   (sumZ (map Quantity rows)))
      (groupby by_ df).

Definition derived_key {K} (f : Derived -> K) (dflt : K) (r : Row) : K :=
  match derived r with
  | Some d => f d
  | None => dflt
  end.

Definition analyze_by_time (df : DataFrame) : result TimeAnalysis :=
  _ <- with_derived df ;;
  Ok {| monthly :=
          period_agg (derived_key (fun d => (Year d, Month d)) (0, 0)%Z) df;
        quarterly :=
          period_agg (derived_key (fun d => (Year d, Quarter d)) (0, 0)%Z) df;
        yearly := period_agg (derived_key Year 0%Z) df |}.

(** Lines 159-165: the product table before sorting. *)
Definition products_agg (df : DataFrame) : list Products.t :=
  map (fun g : (string * string) * list Row =>
         let rows := snd g in
         Products.mk (fst g)
                     (round2 (sum (map Total_Amount rows)))
                     (count (map Total_Amount rows))
                     (sumZ (map Quantity rows))
                     (round2_opt (mean (map Unit_Price rows))))
      (groupby (fun r => (Product_Name r, Category r)) df).

Definition analyze_top_products (S : Sorter) (df : DataFrame) (top_n : Z)
  : list Products.t :=
  let top_products := products_agg df in
  head top_n (sort_values Products.Total_Revenue top_products).

(** [groupby] leaves out the rows whose key is blank. *)
Definition dropna_age (df : DataFrame) : DataFrame :=
  filter (fun r => match Customer_Age_Group r with
                   | Some _ => true
                   | None => false
                   end) df.

Definition age_key (r : Row) : string :=
  match Customer_Age_Group r with
  | Some a => a
  | None => EmptyString
  end.

Definition analyze_customer_demographics (S : Sorter) (df : DataFrame)
  : list Demographics.t :=
  let demo_analysis :=
    map (fun g : string * list Row =>
           let rows := snd g in
           Demographics.mk (fst g)
                           (nunique String.eqb (map Customer_ID rows))
                           (round2 (sum (map Total_Amount rows)))
                           (round2_opt (mean (map Total_Amount rows)))
                           (count (map Order_ID rows)))
        (groupby age_key (dropna_age df)) in
  sort_values Demographics.Total_Revenue demo_analysis.

(** Lines 207-212: the payment table before sorting. *)
Definition payment_agg (df : DataFrame) : list Payment.agg :=
  map (fun g : string * list Row =>
         let rows := snd g in
         Payment.mk (fst g)
                    (round2 (sum (map Total_Amount rows)))
                    (count (map Total_Amount rows))
                    (count (map Order_ID rows)))
      (groupby Payment_Method df).

(** Lines 214-215: each row's share of the order count. *)
Definition add_usage (table : list Payment.agg) : list Payment.t :=
  let total := sum_nat (map Payment.Order_Count table) in
  map (fun r =>
         Payment.with_usage r
           (round2_opt (times100 (fdiv (Q_of_nat (Payment.Order_Count r))
                                       (Q_of_nat total)))))
      table.

Definition analyze_payment_methods (S : Sorter) (df : DataFrame)
  : list Payment.t :=
  let payment_analysis := payment_agg df in
  let payment_analysis :=
    sort_values Payment.Total_Revenue payment_analysis in
  add_usage payment_analysis.

End Analyzer.

(* ===================================================================== *)
(** * insights_generator.py                                               *)
(* ===================================================================== *)

Module Insights.
Import Analyzer.

(** The facts the report lines are formatted from, in the order the
    function extracts them.  The report file is written only when every
    extraction succeeded. *)
Record InsightsReport := mkInsights {
  kpis : Kpis.t;
  top_category : string;
  top_category_revenue : Q;
  top_category_share : option Q;
  top_category_orders : nat;
  top_region : string;
  top_region_revenue : Q;
  top_region_share : option Q;
  top_product : string;
  top_product_revenue : Q;
  top_product_orders : nat;
  top_age_group : string;
  top_age_revenue : Q;
  top_age_customers : nat;
  top_payment : string;
  top_payment_usage : option Q;
  best_month_idx : Z * Z;
  best_month_revenue : Q;
  worst_month_idx : Z * Z;
  worst_month_revenue : Q;
  focus_categories : list string
}.

(** [table.index[0]] / [table.iloc[0]]. *)
Definition iloc0 {A} (table : list A) : result A :=
  match table with
  | [] => Raise IndexError
  | r :: _ => Ok r
  end.

(** [table.loc[label]]: the row carrying the label. *)
Definition loc {A} (key : A -> string) (table : list A) (label : string)
  : result A :=
  match find (fun r => String.eqb (key r) label) table with
  | Some r => Ok r
  | None => Raise KeyError
  end.

(** [column.idxmax()]: the first row holding the largest value. *)
Fixpoint argmax {A} (f : A -> Q) (best : A) (l : list A) : A :=
  match l with
  | [] => best
  | x :: t => if Qlt_le_dec (f best) (f x) then argmax f x t
              else argmax f best t
  end.

Definition idxmax {A} (f : A -> Q) (table : list A) : result A :=
  match table with
  | [] => Raise ValueError
  | x :: t => Ok (argmax f x t)
  end.

(** [column.idxmin()]: the first row holding the smallest value. *)
Fixpoint argmin {A} (f : A -> Q) (best : A) (l : list A) : A :=
  match l with
  | [] => best
  | x :: t => if Qlt_le_dec (f x) (f best) then argmin f x t
              else argmin f best t
  end.

Definition idxmin {A} (f : A -> Q) (table : list A) : result A :=
  match table with
  | [] => Raise ValueError
  | x :: t => Ok (argmin f x t)
  end.

Definition category_key (r : Revenue.t string) : string :=
  Revenue.key (Revenue.base r).

Definition payment_key (r : Payment.t) : string :=
  Payment.key (Payment.base r).

Definition generate_insights_report
           (df : DataFrame) (kpis : Kpis.t)
           (category_analysis region_analysis : list (Revenue.t string))
           (time_analysis : TimeAnalysis)
           (top_products : list Products.t)
           (demo_analysis : list Demographics.t)
           (payment_analysis : list Payment.t)
  : result InsightsReport :=
  (* 1. Top Performing Category *)
  r0 <- iloc0 category_analysis ;;
  let top_category := category_key r0 in
  c <- loc category_key category_analysis top_category ;;
  (* 2. Top Region *)
  r0 <- iloc0 region_analysis ;;
  let top_region := category_key r0 in
  g <- loc category_key region_analysis top_region ;;
  (* 3. Top Product *)
  p <- iloc0 top_products ;;
  let top_product := fst (Products.key p) in
  (* 4. Customer Demographics *)
  r0 <- iloc0 demo_analysis ;;
  let top_age_group := Demographics.key r0 in
  a <- loc Demographics.key demo_analysis top_age_group ;;
  (* 5. Payment Method *)
  r0 <- iloc0 payment_analysis ;;
  let top_payment := payment_key r0 in
  m <- loc payment_key payment_analysis top_payment ;;
  (* 6. Time Trends *)
  let monthly := monthly time_analysis in
  best_month <- idxmax Period.Revenue monthly ;;
  worst_month <- idxmin Period.Revenue monthly ;;
  Ok {| kpis := kpis;
        top_category := top_category;
        top_category_revenue := Revenue.Total_Revenue (Revenue.base c);
        top_category_share := Revenue.Revenue_Share_pct c;
        top_category_orders := Revenue.Order_Count (Revenue.base c);
        top_region := top_region;
        top_region_revenue := Revenue.Total_Revenue (Revenue.base g);
        top_region_share := Revenue.Revenue_Share_pct g;
        top_product := top_product;
        top_product_revenue := Products.Total_Revenue p;
        top_product_orders := Products.Order_Count p;
        top_age_group := top_age_group;
        top_age_revenue := Demographics.Total_Revenue a;
        top_age_customers := Demographics.Unique_Customers a;
        top_payment := top_payment;
        top_payment_usage := Payment.Usage_pct m;
        best_month_idx := Period.key best_month;
        best_month_revenue := Period.Revenue best_month;
        worst_month_idx := Period.key worst_month;
        worst_month_revenue := Period.Revenue worst_month;
        focus_categories := map category_key (head 3 category_analysis) |}.

End Insights.

(* ===================================================================== *)
(** * main_analysis.py                                                    *)
(* ===================================================================== *)

Module Main_analysis.
Import Cleaner Analyzer Insights.

(** Steps 3 to 10 and 12 of [main], on the frame step 1 loaded.  The
    steps left out (reading the file, printing, saving the cleaned frame
    and drawing the charts) compute nothing the report uses. *)
Definition main (S : Sorter) (df : DataFrame) : result InsightsReport :=
  (* Step 3: Clean Data *)
  let df_clean := fst (clean_sales_data df) in
  (* Step 4: Calculate KPIs *)
  let kpis := calculate_kpis df_clean in
  (* Steps 5 and 6 *)
  let category_analysis := analyze_by_category S df_clean in
  let region_analysis := analyze_by_region S df_clean in
  (* Step 7: Time Analysis *)
  time_analysis <- analyze_by_time df_clean ;;
  (* Step 8: Top Products *)
  let top_products := analyze_top_products S df_clean 10 in
  (* Steps 9 and 10 *)
  let demo_analysis := analyze_customer_demographics S df_clean in
  let payment_analysis := analyze_payment_methods S df_clean in
  (* Step 12: Generate Insights Report *)
  generate_insights_report df_clean kpis category_analysis region_analysis
                           time_analysis top_products demo_analysis
                           payment_analysis.

End Main_analysis.

(* ===================================================================== *)
(** * streamlit_app.py                                                    *)
(* ===================================================================== *)

Module Streamlit_app.
Import Cleaner Analyzer.

(** [required_cols.issubset(df.columns)]: the frame has the derived
    columns. *)
Definition has_required_cols (df : DataFrame) : bool :=
  forallb (fun r => match derived r with
                    | Some _ => true
                    | None => false
                    end) df.

Definition prepare_data (df : DataFrame) : DataFrame :=
  if has_required_cols df then df
  else fst (clean_sales_data df).

(** Calendar dates compare by year, then month, then day. *)
Definition date_key (d : Timestamp) : Z * (Z * Z) :=
  (ts_year d, (ts_month d, ts_day d)).

Definition date_leb (a b : Timestamp) : bool :=
  match key_compare (date_key a) (date_key b) with
  | Gt => false
  | _ => true
  end.

(** [column.min()] and [column.max()] of the order dates; there is none
    on an empty frame. *)
Definition min_date (df : DataFrame) : option Timestamp :=
  match df with
  | [] => None
  | r :: t =>
      Some (fold_left (fun m x => if date_leb m (Order_Date x) then m
                                  else Order_Date x)
                      t (Order_Date r))
  end.

Definition max_date (df : DataFrame) : option Timestamp :=
  match df with
  | [] => None
  | r :: t =>
      Some (fold_left (fun m x => if date_leb (Order_Date x) m then m
                                  else Order_Date x)
                      t (Order_Date r))
  end.

(** [sorted(values)]. *)
Fixpoint insert_sorted (x : string) (l : list string) : list string :=
  match l with
  | [] => [x]
  | y :: t =>
      match key_compare x y with
      | Gt => y :: insert_sorted x t
      | _ => x :: l
      end
  end.

Definition sorted (l : list string) : list string :=
  fold_right insert_sorted [] l.

(** [sorted(df[col].dropna().unique().tolist())]: the choices a
    multiselect offers, which are also its default. *)
Definition options (col : Row -> string) (df : DataFrame) : list string :=
  sorted (unique String.eqb (map col df)).

(** What the four sidebar widgets return: the date input gives a pair of
    dates or something else (a single date while the user is picking),
    each multiselect the chosen values. *)
Record Widgets := mkWidgets {
  date_range : option (Timestamp * Timestamp);
  categories : list string;
  regions : list string;
  payments : list string
}.

(** [series.isin(values)]. *)
Definition isin (x : string) (values : list string) : bool :=
  existsb (String.eqb x) values.

(** [build_filters] on a frame with at least one row ([None] stands for
    the empty frame, on which the date widgets have no bounds to show). *)
Definition build_filters (w : Widgets) (df : DataFrame)
  : option DataFrame :=
  match min_date df, max_date df with
  | Some min_date, Some max_date =>
      let '(start_date, end_date) :=
        match date_range w with
        | Some chosen => chosen
        | None => (min_date, max_date)
        end in
      let mask r :=
        date_leb start_date (Order_Date r)
        && date_leb (Order_Date r) end_date
        && isin (Category r) (categories w)
        && isin (Region r) (regions w)
        && isin (Payment_Method r) (payments w) in
      Some (filter mask df)
  | _, _ => None
  end.

(** The widgets as they come up, before the user touches them. *)
Definition default_widgets (df : DataFrame) : Widgets :=
  {| date_range :=
       match min_date df, max_date df with
       | Some a, Some b => Some (a, b)
       | _, _ => None
       end;
     categories := options Category df;
     regions := options Region df;
     payments := options Payment_Method df |}.

(** [main] up to the KPI row: the frame is prepared and filtered, and
    no KPI is computed ([None]) when no record is left, where the page
    stops with a warning. *)
Definition main (w : Widgets) (raw_df : DataFrame) : option Kpis.t :=
  let df := prepare_data raw_df in
  match build_filters w df with
  | Some filtered_df =>
      match filtered_df with
      | [] => None
      | _ :: _ => Some (calculate_kpis filtered_df)
      end
  | None => None
  end.

End Streamlit_app.

Import Cleaner Analyzer Insights.

(* ===================================================================== *)
(** * Vocabulary of the statements and sample frames                     *)
(* ===================================================================== *)

Definition sample_date : Timestamp := mkTimestamp 2023 1 1.

(** An order of one book, not yet cleaned. *)
Definition book_order (id : string) (amount : Q) : Row :=
  mkRow id sample_date "CUST1000" "Fiction" "Books" 1 amount amount 0
        "Europe" "PayPal" (Some "18-25") None.

(** Five "Books" orders with revenues 10, 20, 30, 1000 and 15. *)
Definition books_frame : DataFrame :=
  [book_order "ORD1" 10; book_order "ORD2" 20; book_order "ORD3" 30;
   book_order "ORD4" 1000; book_order "ORD5" 15].

(** What "clamped to the nearer bound" means for one value. *)
Definition clamped (lo hi x y : Q) : Prop :=
  (x < lo -> y = lo) /\ (hi < x -> y = hi) /\ (lo <= x <= hi -> y = x).

(** No row of the frame equals an earlier row. *)
Definition no_duplicate_rows (df : DataFrame) : Prop :=
  ForallOrdPairs (fun earlier later => Row_eqb later earlier = false) df.

(** A frame that already went through the cleaner: three distinct orders
    with their derived columns. *)
Definition cleaned_order (id : string) (amount : Q) : Row :=
  let r := book_order id amount in set_derived r (Some (derive r)).

Definition cleaned_frame : DataFrame :=
  [cleaned_order "ORD1" 10; cleaned_order "ORD2" 20; cleaned_order "ORD3" 30].

(** Key equality, as [groupby] decides it. *)
Definition key_eqb {K} `{Key K} (a b : K) : bool :=
  match key_compare a b with
  | Eq => true
  | _ => false
  end.

(** The rows of a frame that fall into the group of key [k]. *)
Definition rows_of {K} `{Key K} (by_ : Row -> K) (df : DataFrame) (k : K)
  : list Row :=
  filter (fun r => key_eqb (by_ r) k) df.

(** The summed revenue of a group, before any rounding. *)
Definition summed_revenue {K} `{Key K} (by_ : Row -> K) (df : DataFrame)
           (k : K) : Q :=
  sum (map Total_Amount (rows_of by_ df k)).

(** The invariant of the grouping loop after the rows [seen]: keys in
    ascending order, each with exactly its rows, no key missing. *)
Definition grouped {K} `{Key K} (by_ : Row -> K)
           (gs : list (K * list Row)) (seen : DataFrame) : Prop :=
  StronglySorted key_lt (map fst gs)
  /\ (forall k rows, In (k, rows) gs ->
                     rows = rows_of by_ seen k /\ rows <> [])
  /\ (forall r, In r seen -> In (by_ r) (map fst gs)).

(** The comparison of a key type is a strict total order. *)
Class KeyLaws (K : Type) `{Key K} : Prop := {
  key_compare_eq : forall a b : K, key_compare a b = Eq <-> a = b;
  key_compare_antisym :
    forall a b : K, key_compare b a = CompOpp (key_compare a b);
  key_lt_trans : forall a b c : K, key_lt a b -> key_lt b c -> key_lt a c
}.

(** One cleaned order per name (the name serves as order id, category,
    product and payment method alike), with its derived columns. *)
Definition unit_order (name : string) (amount : Q) : Row :=
  let r := mkRow name sample_date "CUST1000" name name 1 amount amount 0
                 "Europe" name (Some "18-25") None in
  set_derived r (Some (derive r)).

Definition six_groups : DataFrame :=
  [unit_order "A" 1; unit_order "B" 1; unit_order "C" 1;
   unit_order "D" 1; unit_order "E" 1; unit_order "F" 1].

(** The KPI set of the empty frame. *)
Definition empty_kpis : Kpis.t :=
  Kpis.mk 0 0 None 0 None 0 (Some 0) 0 0 0.

(** A share as [Series.sum()] counts it: [NaN] cells are skipped. *)
Definition share_value (x : option Q) : Q :=
  match x with
  | Some v => v
  | None => 0
  end.

(** The sum of the ['Revenue_Share_%'] column. *)
Definition revenue_share_total {K} (table : list (Revenue.t K)) : Q :=
  sum (map (fun r => share_value (Revenue.Revenue_Share_pct r)) table).

(** The sum of the ['Usage_%'] column. *)
Definition usage_total (table : list Payment.t) : Q :=
  sum (map (fun r => share_value (Payment.Usage_pct r)) table).

(** One rounded percentage share of [x] in the total [T]. *)
Definition share_of (T x : Q) : Q :=
  share_value (round2_opt (times100 (fdiv x T))).

(** Two groups whose revenues differ below the cent, in both orders, and
    two groups with the same revenue. *)
Definition near_tie_a : DataFrame :=
  [unit_order "A" 100.001; unit_order "B" 100.004].

Definition near_tie_b : DataFrame :=
  [unit_order "A" 100.004; unit_order "B" 100.001].

Definition exact_tie : DataFrame :=
  [unit_order "A" 100; unit_order "B" 100].

(** The order C6 states: descending summed revenue, equal sums by
    ascending key. *)
Definition revenue_order_claimed (by_ : Row -> string) (df : DataFrame)
           (table : list (Revenue.t string)) : Prop :=
  StronglySorted
    (fun x y =>
       summed_revenue by_ df (category_key y)
       < summed_revenue by_ df (category_key x)
       \/ (summed_revenue by_ df (category_key x)
           == summed_revenue by_ df (category_key y)
           /\ key_lt (category_key x) (category_key y)))
    table.

(** The order the table has on its own column. *)
Definition revenue_column_descending (table : list (Revenue.t string)) : Prop :=
  StronglySorted
    (fun x y => Revenue.Total_Revenue (Revenue.base y)
                <= Revenue.Total_Revenue (Revenue.base x))
    table.

(** The same, with equal column values in ascending key order. *)
Definition revenue_column_ties_by_key (table : list (Revenue.t string)) : Prop :=
  StronglySorted
    (fun x y =>
       Revenue.Total_Revenue (Revenue.base y)
       < Revenue.Total_Revenue (Revenue.base x)
       \/ (Revenue.Total_Revenue (Revenue.base x)
           == Revenue.Total_Revenue (Revenue.base y)
           /\ key_lt (category_key x) (category_key y)))
    table.

(** Orders priced in whole cents whose upper bound falls between cents. *)
Definition cent_priced_frame : DataFrame :=
  [book_order "ORD1" 10.01; book_order "ORD2" 20.02; book_order "ORD3" 30.03;
   book_order "ORD4" 1000; book_order "ORD5" 15].

(** The grouping key of the product table. *)
Definition product_key (r : Row) : string * string :=
  (Product_Name r, Category r).

(** What C5 states of a result [top]: at most [n] rows, and every group
    left out has a smaller summed revenue than every row kept, or the
    same and a larger key. *)
Definition top_products_claimed (df : DataFrame) (n : Z)
           (top : list Products.t) : Prop :=
  (length top <= Z.to_nat n)%nat
  /\ forall r k,
      In r top ->
      In k (map fst (groupby product_key df)) ->
      ~ In k (map Products.key top) ->
      summed_revenue product_key df k
      < summed_revenue product_key df (Products.key r)
      \/ (summed_revenue product_key df k
          == summed_revenue product_key df (Products.key r)
          /\ key_lt (Products.key r) k).

(** [Subseq s l]: [s] is [l] with some elements left out, order kept. *)
Inductive Subseq {A : Type} : list A -> list A -> Prop :=
| Subseq_nil : Subseq [] []
| Subseq_keep (x : A) (s l : list A) : Subseq s l -> Subseq (x :: s) (x :: l)
| Subseq_drop (x : A) (s l : list A) : Subseq s l -> Subseq s (x :: l).

(** A cleaned row [c] against the input row [r] it comes from: the ten
    columns the cleaner never writes are the same, and the age group is
    the input's, or "Unknown" where the input had none. *)
Definition same_order (r c : Row) : Prop :=
  Order_ID c = Order_ID r
  /\ Order_Date c = Order_Date r
  /\ Customer_ID c = Customer_ID r
  /\ Product_Name c = Product_Name r
  /\ Category c = Category r
  /\ Quantity c = Quantity r
  /\ Unit_Price c = Unit_Price r
  /\ Discount c = Discount r
  /\ Region c = Region r
  /\ Payment_Method c = Payment_Method r
  /\ Customer_Age_Group c
     = Some (match Customer_Age_Group r with
             | Some a => a
             | None => "Unknown"
             end).

(** The number of positions at which two frames differ in [Total_Amount]. *)
Definition changed_totals (before after : DataFrame) : nat :=
  length (filter (fun p => negb (Qeq_bool (Total_Amount (fst p))
                                          (Total_Amount (snd p))))
                 (combine before after)).

(** [b] is the first element of [table] where [f] is largest. *)
Definition first_largest {A} (f : A -> Q) (table : list A) (b : A) : Prop :=
  exists before after,
    table = before ++ b :: after
    /\ Forall (fun y => f y < f b) before
    /\ Forall (fun y => f y <= f b) after.

(** [b] is the first element of [table] where [f] is smallest. *)
Definition first_smallest {A} (f : A -> Q) (table : list A) (b : A) : Prop :=
  exists before after,
    table = before ++ b :: after
    /\ Forall (fun y => f b < f y) before
    /\ Forall (fun y => f b <= f y) after.

(* ===================================================================== *)
(** * Rounding and sums *)
(* ===================================================================== *)

Section NumericFacts.

Lemma sum_app (l1 l2 : list Q) : sum (l1 ++ l2) == sum l1 + sum l2.
Proof.
  induction l1 as [|x l1 IH]; simpl; [lra|]. rewrite IH. lra.
Qed.

Lemma sum_perm (l1 l2 : list Q) : Permutation l1 l2 -> sum l1 == sum l2.
Proof.
  induction 1; simpl; lra.
Qed.

Lemma floor_bounds (q : Q) :
  inject_Z (Qfloor q) <= q /\ q < inject_Z (Qfloor q) + 1.
Proof.
  split; [apply Qfloor_le|].
  pose proof (Qlt_floor q) as H. rewrite inject_Z_plus in H. exact H.
Qed.

Lemma inject_Z_succ (z : Z) : inject_Z (z + 1) == inject_Z z + 1.
Proof. rewrite inject_Z_plus. reflexivity. Qed.

Lemma rint_near (q : Q) :
  - (1 # 2) <= inject_Z (rint q) - q <= 1 # 2.
Proof.
  unfold rint. destruct (floor_bounds q) as [Hlo Hhi].
  destruct (Qcompare (q - inject_Z (Qfloor q)) (1 # 2)) eqn:E.
  - apply Qeq_alt in E.
    destruct (Z.even (Qfloor q)); rewrite ?inject_Z_succ; lra.
  - apply Qlt_alt in E. lra.
  - apply Qgt_alt in E. rewrite inject_Z_succ. lra.
Qed.

Lemma round2_as_div (q : Q) : round2 q == inject_Z (rint (q * 100)) / 100.
Proof.
  unfold round2. rewrite Qmake_Qdiv. reflexivity.
Qed.

Lemma round2_near (q : Q) :
  - (1 # 200) <= round2 q - q <= 1 # 200.
Proof.
  rewrite round2_as_div. pose proof (rint_near (q * 100)) as H.
  set (r := inject_Z (rint (q * 100))) in *.
  assert (E : r / 100 == r * (1 # 100)) by (unfold Qdiv; reflexivity).
  rewrite E. lra.
Qed.

End NumericFacts.

(* ===================================================================== *)
(** * Quantiles *)
(* ===================================================================== *)

Section QuantileFacts.

Lemma insert_asc_length x l : length (insert_asc x l) = S (length l).
Proof.
  induction l as [|y t IH]; simpl; [reflexivity|].
  destruct (Qle_bool x y); simpl; congruence.
Qed.

Lemma sort_asc_length l : length (sort_asc l) = length l.
Proof.
  induction l as [|x t IH]; simpl; [reflexivity|].
  rewrite insert_asc_length. congruence.
Qed.

Lemma insert_asc_In x y l : In y (insert_asc x l) -> y = x \/ In y l.
Proof.
  induction l as [|z t IH]; simpl.
  - intuition.
  - destruct (Qle_bool x z); simpl; intuition.
Qed.

Lemma insert_asc_sorted x l :
  StronglySorted Qle l -> StronglySorted Qle (insert_asc x l).
Proof.
  induction 1 as [|y t Hs IH Hall]; simpl.
  - constructor; constructor.
  - destruct (Qle_bool x y) eqn:E.
    + apply Qle_bool_iff in E. constructor.
      * constructor; assumption.
      * constructor; [assumption|].
        eapply Forall_impl; [|exact Hall]. intros; lra.
    + assert (y <= x).
      { destruct (Qlt_le_dec y x) as [L|L]; [lra|].
        apply Qle_bool_iff in L. congruence. }
      constructor; [assumption|].
      apply Forall_forall. intros z Hz.
      apply insert_asc_In in Hz. destruct Hz as [->|Hz]; [assumption|].
      rewrite Forall_forall in Hall. auto.
Qed.

Lemma sort_asc_sorted l : StronglySorted Qle (sort_asc l).
Proof.
  induction l; simpl; [constructor|]. apply insert_asc_sorted; assumption.
Qed.

Lemma sorted_nth_mono (s : list Q) :
  StronglySorted Qle s ->
  forall i j, (i <= j)%nat -> (j < length s)%nat -> nth i s 0 <= nth j s 0.
Proof.
  induction 1 as [|x t Hs IH Hall]; intros i j Hij Hj; simpl in Hj; [lia|].
  destruct i, j; simpl; try lia.
  - lra.
  - rewrite Forall_forall in Hall. apply Hall, nth_In. lia.
  - apply IH; lia.
Qed.

(** The interpolated value lies between its two neighbours. *)
Lemma lerp_between (lo hi frac : Q) :
  lo <= hi -> 0 <= frac -> frac <= 1 ->
  lo <= lo + (hi - lo) * frac /\ lo + (hi - lo) * frac <= hi.
Proof. intros. split; nra. Qed.

Lemma interpolate_mono (s : list Q) (p q : Q) :
  StronglySorted Qle s -> (0 < length s)%nat ->
  0 <= p -> p <= q -> q <= 1 ->
  interpolate s p <= interpolate s q.
Proof.
  intros Hs Hn Hp Hpq Hq. unfold interpolate.
  set (n := length s) in *.
  set (m := inject_Z (Z.of_nat (n - 1))) in *.
  assert (Hm : 0 <= m).
  { unfold m. change 0 with (inject_Z 0). rewrite <- Zle_Qle. lia. }
  pose proof (floor_bounds (p * m)) as [Fp1 Fp2].
  pose proof (floor_bounds (q * m)) as [Fq1 Fq2].
  assert (Pp : 0 <= p * m) by nra.
  assert (Ppq : p * m <= q * m) by nra.
  assert (Pq : q * m <= m) by nra.
  assert (Zp : (0 <= Qfloor (p * m))%Z).
  { change 0%Z with (Qfloor 0). apply Qfloor_resp_le. assumption. }
  assert (Zpq : (Qfloor (p * m) <= Qfloor (q * m))%Z).
  { apply Qfloor_resp_le. assumption. }
  assert (Zq : (Qfloor (q * m) <= Z.of_nat (n - 1))%Z).
  { rewrite <- (Qfloor_Z (Z.of_nat (n - 1))). apply Qfloor_resp_le.
    exact Pq. }
  set (fp := Qfloor (p * m)) in *. set (fq := Qfloor (q * m)) in *.
  set (ip := Z.to_nat fp). set (iq := Z.to_nat fq).
  assert (Hip : (ip <= iq)%nat) by (unfold ip, iq; lia).
  assert (Hiq : (iq <= n - 1)%nat) by (unfold iq; lia).
  pose proof (lerp_between (nth ip s 0) (nth (Nat.min (ip + 1) (n - 1)) s 0)
                (p * m - inject_Z fp)) as Lp.
  pose proof (lerp_between (nth iq s 0) (nth (Nat.min (iq + 1) (n - 1)) s 0)
                (q * m - inject_Z fq)) as Lq.
  assert (Sp : nth ip s 0 <= nth (Nat.min (ip + 1) (n - 1)) s 0).
  { apply sorted_nth_mono; [assumption| |]; fold n; lia. }
  assert (Sq : nth iq s 0 <= nth (Nat.min (iq + 1) (n - 1)) s 0).
  { apply sorted_nth_mono; [assumption| |]; fold n; lia. }
  specialize (Lp Sp ltac:(lra) ltac:(lra)).
  specialize (Lq Sq ltac:(lra) ltac:(lra)).
  destruct (Nat.eq_dec ip iq) as [E|NE].
  - assert (Efq : fp = fq) by (unfold ip, iq in E; lia).
    rewrite <- E. rewrite <- Efq.
    set (lo := nth ip s 0) in *.
    set (hi := nth (Nat.min (ip + 1) (n - 1)) s 0) in *.
    assert (p * m - inject_Z fp <= q * m - inject_Z fp) by lra.
    nra.
  - assert (Mid : nth (Nat.min (ip + 1) (n - 1)) s 0 <= nth iq s 0).
    { apply sorted_nth_mono; [assumption| |]; fold n; lia. }
    lra.
Qed.

Lemma quantile_mono (l : list Q) (p q a b : Q) :
  0 <= p -> p <= q -> q <= 1 ->
  quantile l p = Some a -> quantile l q = Some b -> a <= b.
Proof.
  intros Hp Hpq Hq Ha Hb. destruct l as [|x0 l0]; [discriminate|].
  unfold quantile in Ha, Hb.
  assert (Ea : a = interpolate (sort_asc (x0 :: l0)) p) by congruence.
  assert (Eb : b = interpolate (sort_asc (x0 :: l0)) q) by congruence.
  subst a b. apply interpolate_mono; try assumption.
  - apply sort_asc_sorted.
  - rewrite sort_asc_length. simpl. lia.
Qed.

End QuantileFacts.

(* ===================================================================== *)
(** * The cleaner *)
(* ===================================================================== *)

Section CleanerFacts.

Lemma count_true_cons b l :
  count_true (b :: l) = ((if b then 1 else 0) + count_true l)%nat.
Proof. unfold count_true. destruct b; reflexivity. Qed.

Lemma count_true_zero l : count_true l = 0%nat -> Forall (fun b => b = false) l.
Proof.
  induction l as [|b t IH]; [constructor|].
  rewrite count_true_cons. destruct b; [discriminate|].
  intros H. constructor; [reflexivity|]. apply IH. exact H.
Qed.

Lemma drop_duplicates_from_length seen df :
  (length (drop_duplicates_from seen df)
   + count_true (duplicated_from seen df) = length df)%nat.
Proof.
  revert seen. induction df as [|r t IH]; intros seen; [reflexivity|].
  cbn [drop_duplicates_from duplicated_from]. rewrite count_true_cons.
  specialize (IH (r :: seen)).
  destruct (existsb (Row_eqb r) seen); cbn [length]; lia.
Qed.

Lemma handle_missing_length df :
  length (fst (handle_missing df)) = length df.
Proof.
  unfold handle_missing. destruct (0 <? _)%nat; cbn [fst]; [|reflexivity].
  unfold fillna. apply length_map.
Qed.

Lemma remove_duplicates_length df :
  (length (fst (remove_duplicates df)) + snd (remove_duplicates df)
   = length df)%nat.
Proof.
  unfold remove_duplicates.
  destruct (0 <? count_true (duplicated df))%nat eqn:E; cbn [fst snd].
  - apply drop_duplicates_from_length.
  - apply Nat.ltb_ge in E. lia.
Qed.

Lemma handle_outliers_length df :
  length (fst (handle_outliers df)) = length df.
Proof.
  unfold handle_outliers. destruct (iqr_bounds df) as [[lo hi]|]; [|reflexivity].
  destruct (0 <? _)%nat; cbn [fst]; [|reflexivity].
  unfold cap_above, cap_below. rewrite !length_map. reflexivity.
Qed.

Lemma clean_sales_data_unfold df :
  clean_sales_data df =
  (add_derived (fst (handle_outliers (deduplicated df))),
   mkReport (snd (handle_missing df))
            (snd (remove_duplicates (fst (handle_missing df))))
            (snd (handle_outliers (deduplicated df)))).
Proof.
  unfold clean_sales_data, deduplicated.
  destruct (handle_missing df) as [d1 n1]. cbn [fst snd].
  destruct (remove_duplicates d1) as [d2 n2]. cbn [fst snd].
  destruct (handle_outliers d2) as [d3 n3]. reflexivity.
Qed.

Lemma iqr_bounds_ordered df lo hi :
  iqr_bounds df = Some (lo, hi) -> lo <= hi.
Proof.
  unfold iqr_bounds.
  destruct (quantile (totals df) (1 # 4)) as [q1|] eqn:E1; [|discriminate].
  destruct (quantile (totals df) (3 # 4)) as [q3|] eqn:E3; [|discriminate].
  intros H. injection H as <- <-.
  assert (q1 <= q3).
  { eapply quantile_mono; [| | |exact E1|exact E3]; lra. }
  lra.
Qed.

Lemma iqr_bounds_none df : iqr_bounds df = None -> df = [].
Proof.
  unfold iqr_bounds, quantile, totals. destruct df; [reflexivity|].
  discriminate.
Qed.

Lemma Forall2_map_In {A B} (R : A -> B -> Prop) (f : A -> B) (l : list A) :
  (forall x, In x l -> R x (f x)) -> Forall2 R l (map f l).
Proof.
  induction l as [|x t IH]; intros H; simpl; constructor.
  - apply H. left. reflexivity.
  - apply IH. intros y Hy. apply H. right. exact Hy.
Qed.

Lemma Forall2_map_r {A B} (R : A -> B -> Prop) (g : B -> B) l l' :
  (forall x y, R x y -> R x (g y)) -> Forall2 R l l' -> Forall2 R l (map g l').
Proof.
  intros Hg. induction 1; simpl; constructor; auto.
Qed.

Lemma count_true_map_zero {A} (p : A -> bool) (l : list A) :
  count_true (map p l) = 0%nat -> forall x, In x l -> p x = false.
Proof.
  intros H x Hx. apply count_true_zero in H.
  rewrite Forall_forall in H. apply H. apply in_map. exact Hx.
Qed.

Lemma not_outlier_inside lo hi r :
  is_outlier lo hi r = false -> lo <= Total_Amount r <= hi.
Proof.
  unfold is_outlier.
  destruct (Qlt_le_dec (Total_Amount r) lo); [discriminate|].
  destruct (Qlt_le_dec hi (Total_Amount r)); [discriminate|].
  intros _. split; assumption.
Qed.

Lemma inside_not_outlier lo hi r :
  lo <= Total_Amount r <= hi -> is_outlier lo hi r = false.
Proof.
  unfold is_outlier. intros [H1 H2].
  destruct (Qlt_le_dec (Total_Amount r) lo); [lra|].
  destruct (Qlt_le_dec hi (Total_Amount r)); [lra|]. reflexivity.
Qed.

Lemma cap_row_clamped lo hi r :
  lo <= hi ->
  clamped lo hi (Total_Amount r)
    (Total_Amount
       ((fun r1 => if Qlt_le_dec hi (Total_Amount r1)
                   then set_Total_Amount r1 hi else r1)
          (if Qlt_le_dec (Total_Amount r) lo
           then set_Total_Amount r lo else r))).
Proof.
  intros Hb. unfold clamped.
  destruct (Qlt_le_dec (Total_Amount r) lo) as [L|L]; cbn.
  - destruct (Qlt_le_dec hi lo); [lra|].
    cbn. repeat split; intros; lra || reflexivity.
  - destruct (Qlt_le_dec hi (Total_Amount r)) as [U|U]; cbn;
      repeat split; intros; lra || reflexivity.
Qed.

Lemma handle_outliers_clamped df lo hi :
  iqr_bounds df = Some (lo, hi) ->
  Forall2 (fun r c => clamped lo hi (Total_Amount r) (Total_Amount c))
          df (fst (handle_outliers df)).
Proof.
  intros Hb. pose proof (iqr_bounds_ordered _ _ _ Hb) as Hle.
  unfold handle_outliers. rewrite Hb.
  destruct (0 <? count_true (map (is_outlier lo hi) df))%nat eqn:E;
    cbn [fst].
  - unfold cap_above, cap_below. rewrite map_map.
    apply Forall2_map_In. intros r _. apply cap_row_clamped. exact Hle.
  - apply Nat.ltb_ge in E.
    assert (Z : count_true (map (is_outlier lo hi) df) = 0%nat) by lia.
    rewrite <- (map_id df) at 2. apply Forall2_map_In. intros r Hr.
    pose proof (not_outlier_inside _ _ _ (count_true_map_zero _ _ Z r Hr)).
    unfold clamped. repeat split; intros; lra || reflexivity.
Qed.

Lemma iqr_bounds_quartiles df lo hi :
  iqr_bounds df = Some (lo, hi) ->
  exists Q1 Q3,
    quantile (totals df) (1 # 4) = Some Q1 /\
    quantile (totals df) (3 # 4) = Some Q3 /\
    lo = Q1 - (3 # 2) * (Q3 - Q1) /\ hi = Q3 + (3 # 2) * (Q3 - Q1).
Proof.
  unfold iqr_bounds.
  destruct (quantile (totals df) (1 # 4)) as [q1|]; [|discriminate].
  destruct (quantile (totals df) (3 # 4)) as [q3|]; [|discriminate].
  intros H. injection H as <- <-. exists q1, q3. repeat split.
Qed.

End CleanerFacts.

(** C2. The quartiles are the linearly interpolated 0.25 and 0.75 quantiles
    of the deduplicated [Total_Amount] column; every value below
    [Q1 - 1.5 IQR] becomes that bound, every value above [Q3 + 1.5 IQR]
    becomes that bound, every other value is kept.  On the five "Books"
    orders 10, 20, 30, 1000, 15: Q1 = 15, Q3 = 30, upper bound 52.5, one
    capped row, cleaned revenues 10, 20, 30, 52.5, 15 with total 127.5. *)
Theorem clean_clamps_to_iqr_bounds :
  (forall df : DataFrame,
      match iqr_bounds (deduplicated df) with
      | Some (lower_bound, upper_bound) =>
          (exists Q1 Q3,
              quantile (totals (deduplicated df)) (1 # 4) = Some Q1 /\
              quantile (totals (deduplicated df)) (3 # 4) = Some Q3 /\
              lower_bound = Q1 - (3 # 2) * (Q3 - Q1) /\
              upper_bound = Q3 + (3 # 2) * (Q3 - Q1)) /\
          lower_bound <= upper_bound /\
          Forall2 (fun r c => clamped lower_bound upper_bound
                                      (Total_Amount r) (Total_Amount c))
                  (deduplicated df) (fst (clean_sales_data df))
      | None => deduplicated df = [] /\ fst (clean_sales_data df) = []
      end) /\
  (exists Q1 Q3 lower_bound upper_bound,
      quantile (totals books_frame) (1 # 4) = Some Q1 /\ Q1 == 15 /\
      quantile (totals books_frame) (3 # 4) = Some Q3 /\ Q3 == 30 /\
      iqr_bounds (deduplicated books_frame) = Some (lower_bound, upper_bound) /\
      upper_bound == 52.5 /\
      Forall2 Qeq (totals (fst (clean_sales_data books_frame)))
              [10; 20; 30; 52.5; 15] /\
      outliers_capped (snd (clean_sales_data books_frame)) = 1%nat /\
      sum (totals (fst (clean_sales_data books_frame))) == 127.5).
Proof.
  split.
  - intros df. rewrite clean_sales_data_unfold. cbn [fst].
    destruct (iqr_bounds (deduplicated df)) as [[lo hi]|] eqn:Hb.
    + split; [apply iqr_bounds_quartiles; exact Hb|].
      split; [eapply iqr_bounds_ordered; exact Hb|].
      unfold add_derived. apply Forall2_map_r.
      * intros x y H. exact H.
      * apply handle_outliers_clamped. exact Hb.
    + apply iqr_bounds_none in Hb. rewrite Hb. split; reflexivity.
  - eexists _, _, _, _.
    split; [vm_compute; reflexivity|]. split; [vm_compute; reflexivity|].
    split; [vm_compute; reflexivity|]. split; [vm_compute; reflexivity|].
    split; [vm_compute; reflexivity|]. split; [vm_compute; reflexivity|].
    split; [|split; vm_compute; reflexivity].
    vm_compute. repeat constructor.
Qed.

(** C3. The cleaned frame has as many rows as the input minus the
    duplicates the cleaner reports; capping outliers removes none. *)
Theorem clean_row_count (df : DataFrame) :
  (length (fst (clean_sales_data df))
   + duplicates_removed (snd (clean_sales_data df)) = length df)%nat
  /\ length (fst (handle_outliers (deduplicated df)))
     = length (deduplicated df).
Proof.
  rewrite clean_sales_data_unfold. cbn [fst snd duplicates_removed].
  split; [|apply handle_outliers_length].
  unfold add_derived. rewrite length_map, handle_outliers_length.
  unfold deduplicated.
  pose proof (remove_duplicates_length (fst (handle_missing df))) as H.
  rewrite handle_missing_length in H. exact H.
Qed.

(* ===================================================================== *)
(** * Cleaning a clean frame *)
(* ===================================================================== *)

Section IdempotenceFacts.

Lemma count_true_all_false l :
  Forall (fun b => b = false) l -> count_true l = 0%nat.
Proof.
  induction 1 as [|b t Hb _ IH]; [reflexivity|].
  rewrite count_true_cons, IH, Hb. reflexivity.
Qed.

Lemma count_true_map_all_false {A} (p : A -> bool) (l : list A) :
  (forall x, In x l -> p x = false) -> count_true (map p l) = 0%nat.
Proof.
  intros H. apply count_true_all_false. apply Forall_forall.
  intros b Hb. apply in_map_iff in Hb. destruct Hb as [x [<- Hx]]. auto.
Qed.

Lemma handle_missing_none df :
  (forall r, In r df -> Customer_Age_Group r <> None) ->
  handle_missing df = (df, 0%nat).
Proof.
  intros H. unfold handle_missing.
  assert (E : count_true (isnull df) = 0%nat).
  { unfold isnull. apply count_true_map_all_false. intros r Hr.
    specialize (H r Hr). destruct (Customer_Age_Group r); congruence. }
  rewrite E. reflexivity.
Qed.

Lemma duplicated_from_none seen df :
  Forall (fun r => Forall (fun s => Row_eqb r s = false) seen) df ->
  no_duplicate_rows df ->
  count_true (duplicated_from seen df) = 0%nat.
Proof.
  revert seen. induction df as [|r t IH]; intros seen Hseen Hnd;
    [reflexivity|].
  cbn [duplicated_from]. rewrite count_true_cons.
  inversion Hseen as [|? ? Hr Ht]; subst.
  inversion Hnd as [|? ? Hrt Hnt]; subst.
  assert (E : existsb (Row_eqb r) seen = false).
  { destruct (existsb (Row_eqb r) seen) eqn:X; [|reflexivity].
    apply existsb_exists in X. destruct X as [s [Hs Hrs]].
    rewrite Forall_forall in Hr. rewrite (Hr s Hs) in Hrs. discriminate. }
  rewrite E. cbn. apply IH; [|assumption].
  rewrite Forall_forall in *. intros x Hx. constructor.
  - apply Hrt. exact Hx.
  - apply Ht. exact Hx.
Qed.

Lemma remove_duplicates_none df :
  no_duplicate_rows df -> remove_duplicates df = (df, 0%nat).
Proof.
  intros H. unfold remove_duplicates, duplicated.
  rewrite duplicated_from_none; [reflexivity| |assumption].
  apply Forall_forall. intros; constructor.
Qed.

Lemma handle_outliers_none df :
  (forall lo hi, iqr_bounds df = Some (lo, hi) ->
                 forall r, In r df -> lo <= Total_Amount r <= hi) ->
  handle_outliers df = (df, 0%nat).
Proof.
  intros H. unfold handle_outliers.
  destruct (iqr_bounds df) as [[lo hi]|]; [|reflexivity].
  rewrite count_true_map_all_false; [reflexivity|].
  intros r Hr. apply inside_not_outlier. apply (H lo hi eq_refl r Hr).
Qed.

Lemma add_derived_fixed df :
  (forall r, In r df -> derived r = Some (derive r)) -> add_derived df = df.
Proof.
  intros H. unfold add_derived. rewrite <- (map_id df) at 2.
  apply map_ext_in. intros r Hr. specialize (H r Hr).
  destruct r; cbn in *. unfold set_derived; cbn. rewrite H. reflexivity.
Qed.

End IdempotenceFacts.

(** C9. On a frame that carries its derived columns and has no blank age
    group, no repeated row and no [Total_Amount] outside its own IQR
    bounds, the cleaner returns the frame itself and reports zero filled
    values, zero duplicates and zero capped outliers. *)
Theorem clean_idempotent_on_clean_frame (df : DataFrame) :
  (forall r, In r df -> derived r = Some (derive r)) ->
  (forall r, In r df -> Customer_Age_Group r <> None) ->
  no_duplicate_rows df ->
  (forall lo hi, iqr_bounds df = Some (lo, hi) ->
                 forall r, In r df -> lo <= Total_Amount r <= hi) ->
  clean_sales_data df = (df, mkReport 0 0 0).
Proof.
  intros Hder Hage Hdup Hout. unfold clean_sales_data.
  rewrite (handle_missing_none df Hage).
  rewrite (remove_duplicates_none df Hdup).
  rewrite (handle_outliers_none df Hout).
  rewrite (add_derived_fixed df Hder). reflexivity.
Qed.

Lemma clean_idempotent_on_clean_frame_witness :
  clean_sales_data cleaned_frame = (cleaned_frame, mkReport 0 0 0).
Proof.
  apply clean_idempotent_on_clean_frame.
  - intros r Hr. cbn in Hr.
    destruct Hr as [<-|[<-|[<-|[]]]]; reflexivity.
  - intros r Hr. cbn in Hr.
    destruct Hr as [<-|[<-|[<-|[]]]]; discriminate.
  - unfold no_duplicate_rows, cleaned_frame.
    repeat (constructor; [repeat (constructor; [vm_compute; reflexivity|])|]);
      repeat constructor.
  - intros lo hi Hb r Hr. vm_compute in Hb. injection Hb as <- <-.
    cbn in Hr. destruct Hr as [<-|[<-|[<-|[]]]]; split; vm_compute; discriminate.
Defined.

(* ===================================================================== *)
(** * Sorting *)
(* ===================================================================== *)

Section SorterFacts.
Context {A : Type} (by_ : A -> Q).

Let desc (x y : A) : Prop := by_ y <= by_ x.

Lemma insert_desc_perm x l : Permutation (x :: l) (insert_desc by_ x l).
Proof.
  induction l as [|y t IH]; simpl; [reflexivity|].
  destruct (Qlt_le_dec (by_ x) (by_ y)); [|reflexivity].
  rewrite perm_swap. constructor. exact IH.
Qed.

Lemma insertion_sort_desc_perm l : Permutation l (insertion_sort_desc by_ l).
Proof.
  induction l as [|x t IH]; simpl; [constructor|].
  rewrite <- insert_desc_perm. constructor. exact IH.
Qed.

Lemma insert_desc_sorted x l :
  StronglySorted desc l -> StronglySorted desc (insert_desc by_ x l).
Proof.
  induction 1 as [|y t Hs IH Hall]; simpl.
  - repeat constructor.
  - destruct (Qlt_le_dec (by_ x) (by_ y)) as [L|L].
    + constructor; [exact IH|].
      rewrite <- insert_desc_perm. constructor; [unfold desc; lra|exact Hall].
    + constructor; [constructor; assumption|].
      constructor; [exact L|].
      eapply Forall_impl; [|exact Hall]. unfold desc. intros; lra.
Qed.

Lemma insertion_sort_desc_sorted l :
  StronglySorted desc (insertion_sort_desc by_ l).
Proof.
  induction l; simpl; [constructor|]. apply insert_desc_sorted; assumption.
Qed.

Lemma insert_desc_stable v x l :
  filter (fun a => Qeq_bool (by_ a) v) (insert_desc by_ x l) =
  filter (fun a => Qeq_bool (by_ a) v) (x :: l).
Proof.
  induction l as [|y t IH]; [reflexivity|].
  cbn [insert_desc].
  destruct (Qlt_le_dec (by_ x) (by_ y)) as [L|L]; [|reflexivity].
  cbn [filter] in *. rewrite IH.
  destruct (Qeq_bool (by_ x) v) eqn:Ex, (Qeq_bool (by_ y) v) eqn:Ey;
    try reflexivity.
  apply Qeq_bool_iff in Ex, Ey. lra.
Qed.

Lemma insertion_sort_desc_stable v l :
  filter (fun a => Qeq_bool (by_ a) v) (insertion_sort_desc by_ l) =
  filter (fun a => Qeq_bool (by_ a) v) l.
Proof.
  induction l as [|x t IH]; [reflexivity|].
  cbn [insertion_sort_desc fold_right]. rewrite insert_desc_stable.
  cbn [filter]. unfold insertion_sort_desc in IH. rewrite IH. reflexivity.
Qed.

End SorterFacts.

Lemma stable_sorter_ok : sorter_ok stable_sorter.
Proof.
  intros A by_ l. split.
  - apply insertion_sort_desc_perm.
  - apply insertion_sort_desc_sorted.
Qed.

Lemma stable_sorter_stable : sorter_stable stable_sorter.
Proof.
  intros A by_ l v. apply insertion_sort_desc_stable.
Qed.

Lemma reversing_sorter_ok : sorter_ok reversing_sorter.
Proof.
  intros A by_ l. split.
  - cbn. rewrite <- insertion_sort_desc_perm. apply Permutation_rev.
  - apply insertion_sort_desc_sorted.
Qed.

Section SorterConsequences.
Context (S : Sorter) (Hok : sorter_ok S).

Lemma sort_values_perm {A} (by_ : A -> Q) l :
  Permutation l (sort_values by_ l).
Proof. apply Hok. Qed.

Lemma sort_values_sorted {A} (by_ : A -> Q) l :
  StronglySorted (fun x y => by_ y <= by_ x) (sort_values by_ l).
Proof. apply Hok. Qed.

Lemma sort_values_nil {A} (by_ : A -> Q) : sort_values by_ (@nil A) = [].
Proof. apply Permutation_nil. apply sort_values_perm. Qed.

Lemma sort_values_length {A} (by_ : A -> Q) l :
  length (sort_values by_ l) = length l.
Proof. symmetry. apply Permutation_length. apply sort_values_perm. Qed.

Lemma sort_values_In {A} (by_ : A -> Q) l x :
  In x (sort_values by_ l) <-> In x l.
Proof.
  split; apply Permutation_in;
    [symmetry|]; apply sort_values_perm.
Qed.

End SorterConsequences.

(** Lists seen through the pairs "x occurs before y". *)
Section OrderedPairs.
Context {A : Type}.

Lemma sorted_pairs (P : A -> A -> Prop) l :
  StronglySorted P l ->
  forall l1 x l2 y l3, l = l1 ++ x :: l2 ++ y :: l3 -> P x y.
Proof.
  induction 1 as [|a t Hs IH Hall]; intros l1 x l2 y l3 E.
  - destruct l1; discriminate.
  - destruct l1 as [|b l1]; cbn in E; injection E as -> ->.
    + rewrite Forall_forall in Hall. apply Hall.
      apply in_or_app. right. left. reflexivity.
    + eapply IH. reflexivity.
Qed.

Lemma pairs_sorted (P : A -> A -> Prop) l :
  (forall l1 x l2 y l3, l = l1 ++ x :: l2 ++ y :: l3 -> P x y) ->
  StronglySorted P l.
Proof.
  induction l as [|a t IH]; intros H; constructor.
  - apply IH. intros l1 x l2 y l3 ->.
    apply (H (a :: l1) x l2 y l3). reflexivity.
  - apply Forall_forall. intros y Hy.
    destruct (in_split _ _ Hy) as [l2 [l3 ->]].
    apply (H [] a l2 y l3). reflexivity.
Qed.

Lemma sorted_filter (P : A -> A -> Prop) (p : A -> bool) l :
  StronglySorted P l -> StronglySorted P (filter p l).
Proof.
  induction 1 as [|a t Hs IH Hall]; cbn; [constructor|].
  destruct (p a); [|exact IH]. constructor; [exact IH|].
  rewrite Forall_forall in *. intros y Hy.
  apply filter_In in Hy. apply Hall. tauto.
Qed.

Lemma filter_pair (p : A -> bool) l1 x l2 y l3 :
  p x = true -> p y = true ->
  filter p (l1 ++ x :: l2 ++ y :: l3) =
  filter p l1 ++ x :: filter p l2 ++ y :: filter p l3.
Proof.
  intros Hx Hy. rewrite filter_app. cbn [filter]. rewrite Hx.
  rewrite filter_app. cbn [filter]. rewrite Hy. reflexivity.
Qed.

End OrderedPairs.

(** With a stable sort, rows with equal values stay in input order. *)
Lemma stable_sort_keeps_input_order
      (S : Sorter) (Hok : sorter_ok S) (Hst : sorter_stable S)
      {A} (by_ : A -> Q) (R : A -> A -> Prop) (l : list A) :
  StronglySorted R l ->
  StronglySorted (fun x y => by_ y < by_ x \/ (by_ x == by_ y /\ R x y))
                 (sort_values by_ l).
Proof.
  intros HR. apply pairs_sorted. intros l1 x l2 y l3 E.
  pose proof (sorted_pairs _ _ (sort_values_sorted S Hok by_ l) _ _ _ _ _ E)
    as Hle. cbn in Hle.
  destruct (Qlt_le_dec (by_ y) (by_ x)) as [L|L]; [left; exact L|].
  right. assert (Heq : by_ x == by_ y) by lra. split; [exact Heq|].
  pose proof (Hst A by_ l (by_ x)) as F. rewrite E in F.
  rewrite filter_pair in F.
  - eapply sorted_pairs; [|symmetry; exact F].
    apply sorted_filter. exact HR.
  - apply Qeq_bool_iff. reflexivity.
  - apply Qeq_bool_iff. symmetry. exact Heq.
Qed.

(* ===================================================================== *)
(** * Keys and grouping *)
(* ===================================================================== *)

#[global] Instance KeyLaws_string : KeyLaws string.
Proof.
  pose proof String_as_OT.lt_strorder as SO.
  assert (Irr : forall a, ~ String_as_OT.lt a a)
    by (intros a; apply (@StrictOrder_Irreflexive _ _ SO)).
  assert (Tr : forall a b c, String_as_OT.lt a b -> String_as_OT.lt b c ->
                             String_as_OT.lt a c)
    by (intros a b c; apply (@StrictOrder_Transitive _ _ SO)).
  constructor; cbn.
  - intros a b. split.
    + intros E. destruct (String_as_OT.compare_spec a b); congruence.
    + intros <-. destruct (String_as_OT.compare_spec a a) as [| L | L];
        [reflexivity| |]; destruct (Irr _ L).
  - intros a b.
    destruct (String_as_OT.compare_spec a b) as [E|L|L];
      destruct (String_as_OT.compare_spec b a) as [E'|L'|L']; cbn;
      try reflexivity; exfalso; unfold String_as_OT.eq in *; subst;
      first [ eapply Irr; eassumption
            | eapply Irr; eapply Tr; eassumption ].
  - unfold key_lt; cbn. exact Tr.
Qed.

#[global] Instance KeyLaws_Z : KeyLaws Z.
Proof.
  constructor; cbn.
  - intros a b. apply Z.compare_eq_iff.
  - intros a b. rewrite (Z.compare_antisym a b). reflexivity.
  - unfold key_lt; cbn. intros a b c. rewrite !Z.compare_lt_iff. lia.
Qed.

#[global] Instance KeyLaws_pair {K1 K2} `{KeyLaws K1} `{KeyLaws K2}
  : KeyLaws (K1 * K2).
Proof.
  constructor; cbn.
  - intros [a1 a2] [b1 b2]; cbn. split.
    + destruct (key_compare a1 b1) eqn:E1; try discriminate.
      intros E2. apply key_compare_eq in E1, E2. congruence.
    + intros E. injection E as <- <-.
      rewrite (proj2 (key_compare_eq a1 a1) eq_refl).
      apply key_compare_eq. reflexivity.
  - intros [a1 a2] [b1 b2]; cbn.
    rewrite (key_compare_antisym a1 b1).
    destruct (key_compare a1 b1); cbn; try reflexivity.
    apply key_compare_antisym.
  - unfold key_lt; cbn. intros [a1 a2] [b1 b2] [c1 c2]; cbn.
    destruct (key_compare a1 b1) eqn:E1; try discriminate.
    + apply key_compare_eq in E1. subst b1.
      destruct (key_compare a1 c1) eqn:E2; try discriminate; try reflexivity.
      intros L1 L2. eapply key_lt_trans; eassumption.
    + destruct (key_compare b1 c1) eqn:E2; try discriminate.
      * apply key_compare_eq in E2. subst c1. rewrite E1. reflexivity.
      * intros _ _.
        pose proof (key_lt_trans a1 b1 c1 E1 E2) as L. unfold key_lt in L.
        rewrite L. reflexivity.
Qed.

Section GroupbyFacts.
Context {K : Type} `{KeyLaws K} (by_ : Row -> K).

Lemma key_eqb_eq (a b : K) : key_eqb a b = true <-> a = b.
Proof.
  unfold key_eqb. rewrite <- key_compare_eq.
  destruct (key_compare a b); split; congruence.
Qed.

Lemma key_eqb_refl (a : K) : key_eqb a a = true.
Proof. apply key_eqb_eq. reflexivity. Qed.

Lemma key_eqb_neq (a b : K) : a <> b -> key_eqb a b = false.
Proof.
  intros N. destruct (key_eqb a b) eqn:E; [|reflexivity].
  apply key_eqb_eq in E. contradiction.
Qed.

Lemma key_lt_irrefl (a : K) : ~ key_lt a a.
Proof.
  unfold key_lt. rewrite (proj2 (key_compare_eq a a) eq_refl). discriminate.
Qed.

Lemma key_gt_lt (a b : K) : key_compare a b = Gt -> key_lt b a.
Proof.
  unfold key_lt. intros E. rewrite (key_compare_antisym a b), E. reflexivity.
Qed.

Lemma group_insert_keys k r gs k' :
  In k' (map fst (group_insert k r gs)) <-> k' = k \/ In k' (map fst gs).
Proof.
  induction gs as [|[k0 rows0] t IH]; cbn.
  - intuition.
  - destruct (key_compare k k0) eqn:E; cbn.
    + apply key_compare_eq in E. subst k0. intuition.
    + intuition.
    + rewrite IH. intuition.
Qed.

Lemma group_insert_keys_sorted k r gs :
  StronglySorted key_lt (map fst gs) ->
  StronglySorted key_lt (map fst (group_insert k r gs)).
Proof.
  induction gs as [|[k0 rows0] t IH]; cbn; intros Hs.
  - repeat constructor.
  - inversion Hs as [|? ? Hst Hall]; subst.
    destruct (key_compare k k0) eqn:E; cbn.
    + exact Hs.
    + constructor; [exact Hs|]. constructor; [exact E|].
      eapply Forall_impl; [|exact Hall].
      intros a Ha. eapply key_lt_trans; eassumption.
    + constructor; [apply IH; exact Hst|].
      apply Forall_forall. intros a Ha.
      apply group_insert_keys in Ha. destruct Ha as [->|Ha].
      * apply key_gt_lt. exact E.
      * rewrite Forall_forall in Hall. apply Hall. exact Ha.
Qed.

(** Where an entry of the updated table comes from. *)
Lemma group_insert_In k r gs k' rows' :
  StronglySorted key_lt (map fst gs) ->
  In (k', rows') (group_insert k r gs) ->
  (k' = k /\ rows' = [r] /\ ~ In k (map fst gs))
  \/ (k' = k /\ exists rows, In (k, rows) gs /\ rows' = rows ++ [r])
  \/ (k' <> k /\ In (k', rows') gs).
Proof.
  induction gs as [|[k0 rows0] t IH]; cbn; intros Hs Hin.
  - destruct Hin as [E|[]]. injection E as <- <-. left. tauto.
  - inversion Hs as [|? ? Hst Hall]; subst.
    rewrite Forall_forall in Hall.
    destruct (key_compare k k0) eqn:E; cbn in Hin.
    + apply key_compare_eq in E. subst k0.
      destruct Hin as [E|Hin].
      * injection E as <- <-. right. left. split; [reflexivity|].
        exists rows0. split; [left; reflexivity|reflexivity].
      * right. right. split; [|right; exact Hin].
        intros ->. apply (key_lt_irrefl k). apply Hall.
        apply in_map_iff. exists (k, rows'). split; [reflexivity|exact Hin].
    + destruct Hin as [E'|Hin].
      * injection E' as <- <-. left. repeat split.
        intros [->|Hk]; [apply (key_lt_irrefl k); exact E|].
        apply (key_lt_irrefl k). eapply key_lt_trans; [exact E|].
        apply Hall. exact Hk.
      * right. right. split; [|exact Hin].
        intros ->. destruct Hin as [E'|Hin].
        -- injection E' as -> _. apply (key_lt_irrefl k). exact E.
        -- apply (key_lt_irrefl k). eapply key_lt_trans; [exact E|].
           apply Hall. apply in_map_iff.
           exists (k, rows'). split; [reflexivity|exact Hin].
    + destruct Hin as [E'|Hin].
      * injection E' as <- <-. right. right. split; [|left; reflexivity].
        intros ->. rewrite (proj2 (key_compare_eq k k) eq_refl) in E.
        discriminate.
      * destruct (IH Hst Hin) as [[-> [-> N]]|[[-> [rows [Hr ->]]]|[N Hr]]].
        -- left. repeat split. intros [->|Hk]; [|exact (N Hk)].
           rewrite (proj2 (key_compare_eq k k) eq_refl) in E. discriminate.
        -- right. left. split; [reflexivity|].
           exists rows. split; [right; exact Hr|reflexivity].
        -- right. right. split; [exact N|right; exact Hr].
Qed.

Lemma rows_of_snoc seen r k :
  rows_of by_ (seen ++ [r]) k =
  rows_of by_ seen k ++ (if key_eqb (by_ r) k then [r] else []).
Proof.
  unfold rows_of. rewrite filter_app. cbn.
  destruct (key_eqb (by_ r) k); reflexivity.
Qed.

Lemma grouped_step gs seen r :
  grouped by_ gs seen -> grouped by_ (group_insert (by_ r) r gs) (seen ++ [r]).
Proof.
  intros [Hs [Hrows Hkeys]]. split; [|split].
  - apply group_insert_keys_sorted. exact Hs.
  - intros k rows Hin. rewrite rows_of_snoc.
    destruct (group_insert_In _ _ _ _ _ Hs Hin)
      as [[-> [-> N]]|[[-> [rows0 [Hr ->]]]|[N Hr]]].
    + rewrite key_eqb_refl. split; [|discriminate].
      assert (E : rows_of by_ seen (by_ r) = []).
      { unfold rows_of. destruct (filter _ seen) as [|x t] eqn:F;
          [reflexivity|].
        assert (Hx : In x (filter (fun r0 => key_eqb (by_ r0) (by_ r)) seen))
          by (rewrite F; left; reflexivity).
        apply filter_In in Hx. destruct Hx as [Hx Ex].
        apply key_eqb_eq in Ex. destruct N. rewrite <- Ex.
        apply Hkeys. exact Hx. }
      rewrite E. reflexivity.
    + rewrite key_eqb_refl. destruct (Hrows _ _ Hr) as [-> _].
      split; [reflexivity|]. intros E. apply app_eq_nil in E.
      destruct E; discriminate.
    + rewrite key_eqb_neq by congruence. rewrite app_nil_r.
      apply Hrows. exact Hr.
  - intros x Hx. apply group_insert_keys.
    apply in_app_or in Hx. destruct Hx as [Hx|[<-|[]]].
    + right. apply Hkeys. exact Hx.
    + left. reflexivity.
Qed.

Lemma groupby_grouped df : grouped by_ (groupby by_ df) df.
Proof.
  unfold groupby.
  assert (G : forall rest gs seen,
             grouped by_ gs seen ->
             grouped by_ (fold_left (fun gs r => group_insert (by_ r) r gs)
                                rest gs) (seen ++ rest)).
  { induction rest as [|r rest IH]; intros gs seen Hg; cbn.
    - rewrite app_nil_r. exact Hg.
    - replace (seen ++ r :: rest) with ((seen ++ [r]) ++ rest)
        by (rewrite <- app_assoc; reflexivity).
      apply IH. apply grouped_step. exact Hg. }
  apply (G df [] []). split; [constructor|]. split.
  - intros k rows [].
  - intros r [].
Qed.

Lemma groupby_keys_sorted df :
  StronglySorted key_lt (map fst (groupby by_ df)).
Proof. apply groupby_grouped. Qed.

Lemma groupby_rows df k rows :
  In (k, rows) (groupby by_ df) -> rows = rows_of by_ df k /\ rows <> [].
Proof. apply groupby_grouped. Qed.

Lemma groupby_complete df r :
  In r df -> In (by_ r) (map fst (groupby by_ df)).
Proof. apply groupby_grouped. Qed.

End GroupbyFacts.

(* ===================================================================== *)
(** * KPIs, payment counts, empty frames, top-N parameter *)
(* ===================================================================== *)

(** C8. The discount rate is total discount over total revenue times 100
    when the revenue is positive and 0 when it is zero; in no case is it
    the result of a division by zero. *)
Theorem kpi_discount_rate_guarded (df : DataFrame) :
  let revenue := Kpis.Total_Revenue (calculate_kpis df) in
  let discount := Kpis.Total_Discount_Given (calculate_kpis df) in
  revenue = sum (map Total_Amount df) /\
  discount = sum (map Discount df) /\
  (0 < revenue ->
   Kpis.Discount_Rate (calculate_kpis df) = Some (discount / revenue * 100)) /\
  (revenue == 0 -> Kpis.Discount_Rate (calculate_kpis df) = Some 0) /\
  Kpis.Discount_Rate (calculate_kpis df) <> None.
Proof.
  cbn. set (t := sum (map Total_Amount df)). set (d := sum (map Discount df)).
  split; [reflexivity|]. split; [reflexivity|].
  assert (P : 0 < t -> Qeq_bool t 0 = false).
  { intros L. destruct (Qeq_bool t 0) eqn:E; [|reflexivity].
    apply Qeq_bool_iff in E. lra. }
  destruct (Qlt_le_dec 0 t) as [L|L]; unfold fdiv.
  - rewrite (P L). cbn. repeat split; try discriminate.
    intros E. lra.
  - repeat split; try discriminate. intros L'. lra.
Qed.

Lemma kpi_discount_rate_guarded_witness :
  Kpis.Discount_Rate (calculate_kpis [book_order "ORD1" 10])
  = Some (0 / 10 * 100).
Proof.
  apply (proj1 (proj2 (proj2 (kpi_discount_rate_guarded
                                [book_order "ORD1" 10])))).
  vm_compute. reflexivity.
Defined.

Section PaymentFacts.
Context (S : Sorter) (Hok : sorter_ok S).

Lemma payment_agg_rows df r :
  In r (payment_agg df) ->
  Payment.Transaction_Count r
  = length (rows_of Payment_Method df (Payment.key r))
  /\ Payment.Order_Count r
     = length (rows_of Payment_Method df (Payment.key r))
  /\ (0 < Payment.Order_Count r)%nat.
Proof.
  unfold payment_agg. intros Hr. apply in_map_iff in Hr.
  destruct Hr as [[k rows] [<- Hg]]. cbn. unfold count.
  rewrite !length_map.
  destruct (groupby_rows Payment_Method df k rows Hg) as [<- Hne].
  repeat split. destruct rows; [contradiction|cbn; lia].
Qed.

Lemma analyze_payment_methods_base df r :
  In r (analyze_payment_methods S df) -> In (Payment.base r) (payment_agg df).
Proof.
  unfold analyze_payment_methods, add_usage. intros Hr.
  apply in_map_iff in Hr. destruct Hr as [a [<- Ha]]. cbn.
  apply (sort_values_In S Hok) in Ha. exact Ha.
Qed.

End PaymentFacts.

(** C10. In every row of the payment table the transaction count equals
    the order count: both are the number of rows of the group. *)
Theorem payment_transaction_count_is_order_count (S : Sorter) (df : DataFrame) :
  sorter_ok S ->
  Forall (fun r =>
            Payment.Transaction_Count (Payment.base r)
            = Payment.Order_Count (Payment.base r)
            /\ Payment.Order_Count (Payment.base r)
               = length (rows_of Payment_Method df
                                 (Payment.key (Payment.base r))))
         (analyze_payment_methods S df).
Proof.
  intros Hok. apply Forall_forall. intros r Hr.
  apply (analyze_payment_methods_base S Hok) in Hr.
  destruct (payment_agg_rows df _ Hr) as [H1 [H2 _]].
  split; congruence.
Qed.

Lemma payment_transaction_count_is_order_count_witness :
  Forall (fun r =>
            Payment.Transaction_Count (Payment.base r)
            = Payment.Order_Count (Payment.base r)
            /\ Payment.Order_Count (Payment.base r)
               = length (rows_of Payment_Method six_groups
                                 (Payment.key (Payment.base r))))
         (analyze_payment_methods stable_sorter six_groups).
Proof.
  apply (payment_transaction_count_is_order_count stable_sorter six_groups).
  exact stable_sorter_ok.
Defined.

(** C1 as stated fails: on the empty frame [calculate_kpis] raises
    nothing and returns the KPI set of zeros (with undefined means). *)
Lemma empty_frame_kpis_are_returned : calculate_kpis [] = empty_kpis.
Proof. reflexivity. Qed.

(** C1, amended. On the empty frame no analysis function raises:
    [calculate_kpis] returns zero totals and counts, a discount rate of 0
    and undefined means, and every grouped table is empty.  The report
    generator, given an empty category table, raises [IndexError] at its
    first lookup and writes no report. *)
Theorem empty_frame_behaviour (S : Sorter) :
  sorter_ok S ->
  calculate_kpis [] = empty_kpis
  /\ analyze_by_category S [] = []
  /\ analyze_by_region S [] = []
  /\ analyze_by_time [] = Ok (mkTimeAnalysis [] [] [])
  /\ (forall top_n, analyze_top_products S [] top_n = [])
  /\ analyze_customer_demographics S [] = []
  /\ analyze_payment_methods S [] = []
  /\ (forall df kpis region_analysis time_analysis top_products
             demo_analysis payment_analysis,
         generate_insights_report df kpis [] region_analysis time_analysis
                                  top_products demo_analysis payment_analysis
         = Raise IndexError).
Proof.
  intros Hok.
  unfold analyze_by_category, analyze_by_region, analyze_top_products,
    analyze_customer_demographics, analyze_payment_methods.
  cbn. rewrite !(sort_values_nil S Hok).
  repeat split.
  intros top_n. unfold head. destruct (0 <=? top_n)%Z; cbn;
    [apply firstn_nil|reflexivity].
Qed.

Lemma empty_frame_behaviour_witness :
  calculate_kpis [] = empty_kpis
  /\ analyze_by_category stable_sorter [] = []
  /\ generate_insights_report
       [] (calculate_kpis [])
       (analyze_by_category stable_sorter [])
       (analyze_by_region stable_sorter [])
       (mkTimeAnalysis [] [] [])
       (analyze_top_products stable_sorter [] 10)
       (analyze_customer_demographics stable_sorter [])
       (analyze_payment_methods stable_sorter [])
     = Raise IndexError.
Proof.
  pose proof (empty_frame_behaviour stable_sorter stable_sorter_ok)
    as [H1 [H2 [_ [_ [_ [_ [_ H8]]]]]]].
  split; [exact H1|]. split; [exact H2|]. rewrite H2. apply H8.
Defined.

(** C7 as stated fails: with [top_n = 0] the product table is returned
    empty, and with a negative [top_n] it is returned without its last
    rows; no error is raised. *)
Lemma nonpositive_top_n_is_accepted :
  (forall S : Sorter, analyze_top_products S six_groups 0 = [])
  /\ map Products.key (analyze_top_products stable_sorter six_groups (-2))
     = [("A", "A"); ("B", "B"); ("C", "C"); ("D", "D")].
Proof.
  split; [intros S; reflexivity|]. vm_compute. reflexivity.
Qed.

(** C7, amended. For [top_n = 0] the result is the empty table; for
    [top_n < 0] it is the sorted product table without its last [-top_n]
    rows.  No configuration is rejected. *)
Theorem top_products_nonpositive_n (S : Sorter) (df : DataFrame) (top_n : Z) :
  sorter_ok S ->
  (top_n <= 0)%Z ->
  let full := sort_values Products.Total_Revenue (products_agg df) in
  (top_n = 0%Z -> analyze_top_products S df top_n = [])
  /\ (top_n < 0 ->
      analyze_top_products S df top_n
      = firstn (length full - Z.to_nat (- top_n)) full)%Z
  /\ length (analyze_top_products S df top_n)
     = (if (top_n =? 0)%Z then 0
        else length (products_agg df) - Z.to_nat (- top_n))%nat.
Proof.
  intros Hok Hn full. unfold analyze_top_products, head. fold full.
  split; [|split].
  - intros ->. reflexivity.
  - intros L. destruct (0 <=? top_n)%Z eqn:E; [|reflexivity].
    apply Z.leb_le in E. lia.
  - destruct (top_n =? 0)%Z eqn:E0.
    + apply Z.eqb_eq in E0. subst. reflexivity.
    + apply Z.eqb_neq in E0.
      destruct (0 <=? top_n)%Z eqn:E; [apply Z.leb_le in E; lia|].
      rewrite length_firstn. unfold full.
      rewrite (sort_values_length S Hok). lia.
Qed.

Lemma top_products_nonpositive_n_witness :
  analyze_top_products stable_sorter six_groups (-2)
  = firstn (length (@sort_values stable_sorter _ Products.Total_Revenue
                                 (products_agg six_groups)) - 2)
           (@sort_values stable_sorter _ Products.Total_Revenue
                         (products_agg six_groups)).
Proof.
  apply (proj1 (proj2 (top_products_nonpositive_n
                         stable_sorter six_groups (-2)
                         stable_sorter_ok ltac:(lia)))).
  lia.
Defined.

(* ===================================================================== *)
(** * Percentage shares *)
(* ===================================================================== *)

Section ShareFacts.

Lemma Q_of_nat_succ n : Q_of_nat (S n) == Q_of_nat n + 1.
Proof.
  unfold Q_of_nat. rewrite Nat2Z.inj_succ. unfold Z.succ.
  apply inject_Z_succ.
Qed.

Lemma Q_of_nat_plus a b : Q_of_nat (a + b) == Q_of_nat a + Q_of_nat b.
Proof.
  unfold Q_of_nat. rewrite Nat2Z.inj_add, inject_Z_plus. reflexivity.
Qed.

Lemma Q_of_nat_pos n : (0 < n)%nat -> 0 < Q_of_nat n.
Proof.
  intros H. unfold Q_of_nat. change 0 with (inject_Z 0).
  rewrite <- Zlt_Qlt. lia.
Qed.

Lemma sum_round2_near (xs : list Q) :
  - ((1 # 200) * Q_of_nat (length xs)) <= sum (map round2 xs) - sum xs
  /\ sum (map round2 xs) - sum xs <= (1 # 200) * Q_of_nat (length xs).
Proof.
  induction xs as [|x t IH].
  - change (sum (map round2 [])) with 0. change (sum []) with 0.
    change (Q_of_nat (length (@nil Q))) with 0. lra.
  - change (sum (map round2 (x :: t))) with (round2 x + sum (map round2 t)).
    change (sum (x :: t)) with (x + sum t).
    change (length (x :: t)) with (S (length t)). rewrite Q_of_nat_succ.
    pose proof (round2_near x). lra.
Qed.

Lemma sum_map_scale (c : Q) (xs : list Q) :
  sum (map (fun x => x * c) xs) == sum xs * c.
Proof.
  induction xs as [|x t IH].
  - change (0 == 0 * c). ring.
  - change (x * c + sum (map (fun x => x * c) t) == (x + sum t) * c).
    rewrite IH. ring.
Qed.

Lemma rint_comp (x y : Q) : x == y -> rint x = rint y.
Proof.
  intros E. unfold rint. rewrite (Qfloor_comp x y E).
  assert (C : Qcompare (x - inject_Z (Qfloor y)) (1 # 2)
              = Qcompare (y - inject_Z (Qfloor y)) (1 # 2)).
  { apply Qcompare_comp; [|reflexivity].
    apply Qplus_comp; [exact E|reflexivity]. }
  rewrite C. reflexivity.
Qed.

Lemma round2_comp (x y : Q) : x == y -> round2 x = round2 y.
Proof.
  intros E. unfold round2. f_equal. apply rint_comp.
  apply Qmult_comp; [exact E|reflexivity].
Qed.

Lemma share_of_defined (T x : Q) :
  ~ T == 0 -> share_of T x = round2 (x / T * 100).
Proof.
  intros N. unfold share_of, fdiv.
  destruct (Qeq_bool T 0) eqn:E; [|reflexivity].
  apply Qeq_bool_iff in E. contradiction.
Qed.

(** Rounded shares of the parts of a non-zero total miss 100 by at most
    half a hundredth per part. *)
Lemma shares_near_100 (xs : list Q) :
  ~ sum xs == 0 ->
  Qabs (sum (map (share_of (sum xs)) xs) - 100)
  <= (1 # 200) * Q_of_nat (length xs).
Proof.
  intros N. set (T := sum xs) in *.
  assert (E : map (share_of T) xs
              = map round2 (map (fun x => x * (/ T * 100)) xs)).
  { rewrite map_map. apply map_ext. intros x.
    rewrite (share_of_defined T x N). apply round2_comp.
    unfold Qdiv. ring. }
  rewrite E.
  pose proof (sum_round2_near (map (fun x => x * (/ T * 100)) xs)) as [L U].
  rewrite length_map in L, U.
  assert (C : sum (map (fun x => x * (/ T * 100)) xs) == 100).
  { rewrite sum_map_scale. fold T. field. exact N. }
  apply Qabs_Qle_condition. split; lra.
Qed.

Lemma share_of_comp (T T' x : Q) : T == T' -> share_of T x = share_of T' x.
Proof.
  intros E. unfold share_of, fdiv.
  assert (B : Qeq_bool T 0 = Qeq_bool T' 0).
  { destruct (Qeq_bool T 0) eqn:E1, (Qeq_bool T' 0) eqn:E2;
      try reflexivity.
    - apply Qeq_bool_iff in E1. apply Qeq_bool_neq in E2. lra.
    - apply Qeq_bool_iff in E2. apply Qeq_bool_neq in E1. lra. }
  rewrite <- B. destruct (Qeq_bool T 0) eqn:E1; [reflexivity|].
  cbn. apply round2_comp. apply Qeq_bool_neq in E1. rewrite E. reflexivity.
Qed.

Lemma revenue_share_total_eq {K} (table : list (Revenue.agg K)) :
  revenue_share_total (add_revenue_share table)
  = sum (map (share_of (sum (map Revenue.Total_Revenue table)))
             (map Revenue.Total_Revenue table)).
Proof.
  unfold revenue_share_total, add_revenue_share. rewrite !map_map.
  reflexivity.
Qed.

Lemma usage_total_eq (table : list Payment.agg) :
  usage_total (add_usage table)
  = sum (map (share_of (Q_of_nat (sum_nat (map Payment.Order_Count table))))
             (map (fun r => Q_of_nat (Payment.Order_Count r)) table)).
Proof.
  unfold usage_total, add_usage. rewrite !map_map. reflexivity.
Qed.

Lemma sum_Q_of_nat (ns : list nat) :
  sum (map Q_of_nat ns) == Q_of_nat (sum_nat ns).
Proof.
  induction ns as [|n t IH].
  - reflexivity.
  - change (Q_of_nat n + sum (map Q_of_nat t)
            == Q_of_nat (n + sum_nat t)).
    rewrite Q_of_nat_plus, IH. reflexivity.
Qed.

(** The share total does not depend on the order of the rows. *)
Lemma revenue_share_total_perm {K} (t t' : list (Revenue.agg K)) :
  Permutation t t' ->
  revenue_share_total (add_revenue_share t)
  == revenue_share_total (add_revenue_share t').
Proof.
  intros P. rewrite !revenue_share_total_eq.
  assert (PT : Permutation (map Revenue.Total_Revenue t)
                           (map Revenue.Total_Revenue t'))
    by (apply Permutation_map; exact P).
  pose proof (sum_perm _ _ PT) as ET.
  rewrite (map_ext _ _ (fun x => share_of_comp _ _ x ET)).
  apply sum_perm. apply Permutation_map. exact PT.
Qed.

End ShareFacts.

(** C4 as stated fails: with six categories of equal revenue every share
    is 16.67 and the column sums to 100.02, whatever the sort does. *)
Lemma six_equal_shares_exceed_tolerance :
  ~ exists S : Sorter,
      sorter_ok S /\
      Qabs (revenue_share_total (analyze_by_category S six_groups) - 100)
      <= 1 # 100.
Proof.
  intros [S [Hok H]]. unfold analyze_by_category in H.
  rewrite <- (revenue_share_total_perm _ _ (sort_values_perm S Hok _ _)) in H.
  vm_compute in H. apply H. reflexivity.
Qed.

Section ShareTotals.
Context (S : Sorter) (Hok : sorter_ok S).

Lemma sorted_revenue_total {K} (t : list (Revenue.agg K)) :
  sum (map Revenue.Total_Revenue (sort_values Revenue.Total_Revenue t))
  == sum (map Revenue.Total_Revenue t).
Proof.
  apply sum_perm. apply Permutation_map. symmetry.
  apply (sort_values_perm S Hok).
Qed.

Lemma revenue_shares_bound {K} `{KeyLaws K} (by_ : Row -> K) df :
  ~ sum (map Revenue.Total_Revenue (revenue_agg by_ df)) == 0 ->
  Qabs (revenue_share_total
          (add_revenue_share
             (sort_values Revenue.Total_Revenue (revenue_agg by_ df))) - 100)
  <= (1 # 200) * Q_of_nat (length (revenue_agg by_ df)).
Proof.
  intros N. rewrite revenue_share_total_eq.
  rewrite <- (sort_values_length S Hok Revenue.Total_Revenue).
  rewrite <- (length_map Revenue.Total_Revenue).
  apply shares_near_100. rewrite sorted_revenue_total. exact N.
Qed.

Lemma sum_nat_ge {A} (f : A -> nat) (l : list A) (x : A) :
  In x l -> (f x <= sum_nat (map f l))%nat.
Proof.
  unfold sum_nat. induction l as [|a l IH]; cbn; intros Hx; [contradiction|].
  destruct Hx as [->|Hx]; [lia|]. specialize (IH Hx). lia.
Qed.

Lemma payment_total_positive df :
  df <> [] -> (0 < sum_nat (map Payment.Order_Count (payment_agg df)))%nat.
Proof.
  intros N. destruct df as [|r0 t]; [contradiction|].
  pose proof (groupby_complete Payment_Method (r0 :: t) r0
                               (or_introl eq_refl)) as Hk.
  apply in_map_iff in Hk. destruct Hk as [[k rows] [_ Hg]].
  assert (Hr : In (Payment.mk k (round2 (sum (map Total_Amount rows)))
                              (count (map Total_Amount rows))
                              (count (map Order_ID rows)))
                  (payment_agg (r0 :: t))).
  { unfold payment_agg. apply in_map_iff. exists (k, rows). split;
      [reflexivity|exact Hg]. }
  destruct (payment_agg_rows _ _ Hr) as [_ [_ Hpos]].
  pose proof (sum_nat_ge Payment.Order_Count _ _ Hr). lia.
Qed.

Lemma usage_bound df :
  df <> [] ->
  Qabs (usage_total (add_usage (sort_values Payment.Total_Revenue
                                            (payment_agg df))) - 100)
  <= (1 # 200) * Q_of_nat (length (payment_agg df)).
Proof.
  intros N. rewrite usage_total_eq.
  set (t := sort_values Payment.Total_Revenue (payment_agg df)).
  assert (P : Permutation (payment_agg df) t)
    by apply (sort_values_perm S Hok).
  assert (ET : Q_of_nat (sum_nat (map Payment.Order_Count t))
               == sum (map (fun r => Q_of_nat (Payment.Order_Count r)) t)).
  { rewrite <- sum_Q_of_nat, map_map. reflexivity. }
  rewrite (map_ext _ _ (fun x => share_of_comp _ _ x ET)).
  rewrite (Permutation_length P).
  rewrite <- (length_map (fun r => Q_of_nat (Payment.Order_Count r)) t).
  apply shares_near_100. rewrite <- ET.
  assert (Pos : (0 < sum_nat (map Payment.Order_Count t))%nat).
  { replace (sum_nat (map Payment.Order_Count t))
      with (sum_nat (map Payment.Order_Count (payment_agg df))).
    - apply payment_total_positive. exact N.
    - clear - P. unfold sum_nat. induction P; cbn in *; lia. }
  pose proof (Q_of_nat_pos _ Pos) as Hp. intros Z0. lra.
Qed.

End ShareTotals.

(** C4, amended. When the table's revenue column has a non-zero total, the
    revenue shares of the category and of the region table sum to 100
    within 0.005 per group; for a non-empty frame so do the usage shares
    of the payment table. *)
Theorem share_columns_sum_to_100 (S : Sorter) (df : DataFrame) :
  sorter_ok S ->
  (~ sum (map Revenue.Total_Revenue (revenue_agg Category df)) == 0 ->
   Qabs (revenue_share_total (analyze_by_category S df) - 100)
   <= (1 # 200) * Q_of_nat (length (analyze_by_category S df)))
  /\ (~ sum (map Revenue.Total_Revenue (revenue_agg Region df)) == 0 ->
      Qabs (revenue_share_total (analyze_by_region S df) - 100)
      <= (1 # 200) * Q_of_nat (length (analyze_by_region S df)))
  /\ (df <> [] ->
      Qabs (usage_total (analyze_payment_methods S df) - 100)
      <= (1 # 200) * Q_of_nat (length (analyze_payment_methods S df))).
Proof.
  intros Hok.
  unfold analyze_by_category, analyze_by_region, analyze_payment_methods.
  repeat split; intros N.
  - unfold add_revenue_share at 2. rewrite length_map.
    rewrite (sort_values_length S Hok).
    apply (revenue_shares_bound S Hok). exact N.
  - unfold add_revenue_share at 2. rewrite length_map.
    rewrite (sort_values_length S Hok).
    apply (revenue_shares_bound S Hok). exact N.
  - unfold add_usage at 2. rewrite length_map.
    rewrite (sort_values_length S Hok).
    apply (usage_bound S Hok). exact N.
Qed.

Lemma share_columns_sum_to_100_witness :
  Qabs (revenue_share_total (analyze_by_category stable_sorter six_groups)
        - 100)
  <= (1 # 200) * Q_of_nat (length (analyze_by_category stable_sorter
                                                       six_groups))
  /\ Qabs (usage_total (analyze_payment_methods stable_sorter six_groups)
           - 100)
     <= (1 # 200) * Q_of_nat (length (analyze_payment_methods stable_sorter
                                                              six_groups)).
Proof.
  pose proof (share_columns_sum_to_100 stable_sorter six_groups
                                       stable_sorter_ok) as [H1 [_ H3]].
  split.
  - apply H1. vm_compute. discriminate.
  - apply H3. discriminate.
Defined.

(* ===================================================================== *)
(** * Order of the revenue tables *)
(* ===================================================================== *)

(** Capping writes the bound itself, so a cleaned frame can hold amounts
    with more than two decimals: here 52.575. *)
Lemma capping_yields_subcent_amounts :
  Forall2 Qeq (totals (fst (clean_sales_data cent_priced_frame)))
          [10.01; 20.02; 30.03; 52.575; 15].
Proof.
  vm_compute. repeat constructor.
Qed.

(** The sample frames are cleaned record sets: the cleaner returns them
    as they are. *)
Lemma sample_frames_are_cleaned :
  Forall (fun df => clean_sales_data df = (df, mkReport 0 0 0))
         [six_groups; near_tie_a; near_tie_b; exact_tie].
Proof.
  repeat constructor; vm_compute; reflexivity.
Qed.

Section SortedMaps.
Context {A B : Type} (f : A -> B) (P : B -> B -> Prop).

Lemma sorted_map l :
  StronglySorted (fun x y => P (f x) (f y)) l -> StronglySorted P (map f l).
Proof.
  induction 1 as [|a t Hs IH Hall]; cbn; constructor; [exact IH|].
  apply Forall_forall. intros b Hb. apply in_map_iff in Hb.
  destruct Hb as [x [<- Hx]]. rewrite Forall_forall in Hall. auto.
Qed.

Lemma sorted_map_inv l :
  StronglySorted P (map f l) -> StronglySorted (fun x y => P (f x) (f y)) l.
Proof.
  induction l as [|a t IH]; cbn; intros Hs; constructor;
    inversion Hs as [|? ? Hst Hall]; subst.
  - apply IH. exact Hst.
  - rewrite Forall_forall in *. intros x Hx. apply Hall.
    apply in_map. exact Hx.
Qed.

End SortedMaps.

Section RevenueTableFacts.
Context (S : Sorter) (Hok : sorter_ok S).
Context (by_ : Row -> string) (df : DataFrame).

Let table : list (Revenue.t string) :=
  add_revenue_share (sort_values Revenue.Total_Revenue (revenue_agg by_ df)).

Lemma revenue_agg_keys_sorted :
  StronglySorted (fun x y => key_lt (Revenue.key x) (Revenue.key y))
                 (revenue_agg by_ df).
Proof.
  unfold revenue_agg. apply sorted_map.
  exact (sorted_map_inv fst key_lt _ (groupby_keys_sorted by_ df)).
Qed.

Lemma revenue_agg_total r :
  In r (revenue_agg by_ df) ->
  Revenue.Total_Revenue r = round2 (summed_revenue by_ df (Revenue.key r)).
Proof.
  unfold revenue_agg. intros Hr. apply in_map_iff in Hr.
  destruct Hr as [[k rows] [<- Hg]]. cbn.
  destruct (groupby_rows by_ df k rows Hg) as [-> _]. reflexivity.
Qed.

Lemma revenue_table_total r :
  In r table ->
  Revenue.Total_Revenue (Revenue.base r)
  = round2 (summed_revenue by_ df (category_key r)).
Proof.
  unfold table, add_revenue_share. intros Hr. apply in_map_iff in Hr.
  destruct Hr as [a [<- Ha]]. cbn.
  apply revenue_agg_total. apply (sort_values_In S Hok) in Ha. exact Ha.
Qed.

Lemma revenue_table_descending : revenue_column_descending table.
Proof.
  unfold revenue_column_descending, table, add_revenue_share.
  apply sorted_map. cbn. apply (sort_values_sorted S Hok).
Qed.

Lemma revenue_table_ties_by_key :
  sorter_stable S -> revenue_column_ties_by_key table.
Proof.
  intros Hst. unfold revenue_column_ties_by_key, table, add_revenue_share.
  apply sorted_map. cbn.
  apply (stable_sort_keeps_input_order S Hok Hst Revenue.Total_Revenue
           (fun x y => key_lt (Revenue.key x) (Revenue.key y))).
  apply revenue_agg_keys_sorted.
Qed.

End RevenueTableFacts.

(** C6 as stated fails.  The sort runs on the revenue column after it was
    rounded to cents, so of two groups whose sums differ below the cent
    the smaller one can come first: whatever the sort does with equal
    column values, one of the two frames is out of order.  And a sort that
    is not stable puts equal sums in descending key order. *)
Lemma revenue_order_not_as_claimed :
  (~ exists S : Sorter,
        sorter_ok S
        /\ revenue_order_claimed Category near_tie_a
                                 (analyze_by_category S near_tie_a)
        /\ revenue_order_claimed Category near_tie_b
                                 (analyze_by_category S near_tie_b))
  /\ (exists S : Sorter,
         sorter_ok S
         /\ ~ revenue_order_claimed Category exact_tie
                                    (analyze_by_category S exact_tie)).
Proof.
  split.
  - intros [S [Hok [Ha Hb]]]. unfold analyze_by_category in Ha, Hb.
    assert (E : revenue_agg Category near_tie_b
                = revenue_agg Category near_tie_a) by (vm_compute; reflexivity).
    rewrite E in Hb.
    pose proof (sort_values_perm S Hok Revenue.Total_Revenue
                                 (revenue_agg Category near_tie_a)) as P.
    remember (sort_values Revenue.Total_Revenue
                          (revenue_agg Category near_tie_a)) as t eqn:Et.
    clear Et E. vm_compute in P.
    apply Permutation_length_2_inv in P. destruct P as [-> | ->].
    + inversion Ha as [|? ? _ Hall]. inversion Hall as [|? ? Hor _].
      vm_compute in Hor. destruct Hor as [L | [L _]]; discriminate.
    + inversion Hb as [|? ? _ Hall]. inversion Hall as [|? ? Hor _].
      vm_compute in Hor. destruct Hor as [L | [L _]]; discriminate.
  - exists reversing_sorter. split; [exact reversing_sorter_ok|].
    intros H. vm_compute in H.
    inversion H as [|? ? _ Hall]. inversion Hall as [|? ? Hor _].
    destruct Hor as [L | [_ L]]; discriminate.
Qed.

(** C6, amended. The category table and the region table are in
    descending order of their [Total_Revenue] column, which holds each
    group's summed revenue rounded to two decimals; under a stable sort,
    rows with equal column values are in ascending key order. *)
Theorem revenue_tables_sorted (S : Sorter) (df : DataFrame) :
  sorter_ok S ->
  (forall r, In r (analyze_by_category S df) ->
             Revenue.Total_Revenue (Revenue.base r)
             = round2 (summed_revenue Category df (category_key r)))
  /\ revenue_column_descending (analyze_by_category S df)
  /\ (sorter_stable S -> revenue_column_ties_by_key (analyze_by_category S df))
  /\ (forall r, In r (analyze_by_region S df) ->
                Revenue.Total_Revenue (Revenue.base r)
                = round2 (summed_revenue Region df (category_key r)))
  /\ revenue_column_descending (analyze_by_region S df)
  /\ (sorter_stable S -> revenue_column_ties_by_key (analyze_by_region S df)).
Proof.
  intros Hok. unfold analyze_by_category, analyze_by_region.
  repeat split.
  - apply (revenue_table_total S Hok).
  - apply (revenue_table_descending S Hok).
  - apply (revenue_table_ties_by_key S Hok).
  - apply (revenue_table_total S Hok).
  - apply (revenue_table_descending S Hok).
  - apply (revenue_table_ties_by_key S Hok).
Qed.

Lemma revenue_tables_sorted_witness :
  revenue_column_descending (analyze_by_category stable_sorter exact_tie)
  /\ revenue_column_ties_by_key (analyze_by_category stable_sorter exact_tie)
  /\ map category_key (analyze_by_category stable_sorter exact_tie)
     = ["A"; "B"].
Proof.
  pose proof (revenue_tables_sorted stable_sorter exact_tie stable_sorter_ok)
    as [_ [H2 [H3 _]]].
  split; [exact H2|]. split; [exact (H3 stable_sorter_stable)|].
  vm_compute. reflexivity.
Defined.

(* ===================================================================== *)
(** * Top products *)
(* ===================================================================== *)

Section ProductTableFacts.
Context (S : Sorter) (Hok : sorter_ok S) (df : DataFrame).

Lemma products_agg_keys_sorted :
  StronglySorted (fun x y => key_lt (Products.key x) (Products.key y))
                 (products_agg df).
Proof.
  unfold products_agg. apply sorted_map.
  exact (sorted_map_inv fst key_lt _
           (groupby_keys_sorted (fun r => (Product_Name r, Category r)) df)).
Qed.

Lemma products_agg_total r :
  In r (products_agg df) ->
  Products.Total_Revenue r
  = round2 (summed_revenue product_key df (Products.key r)).
Proof.
  unfold products_agg. intros Hr. apply in_map_iff in Hr.
  destruct Hr as [[k rows] [<- Hg]]. cbn.
  destruct (groupby_rows _ df k rows Hg) as [-> _]. reflexivity.
Qed.

Lemma head_length {A} (n : Z) (l : list A) :
  (0 < n)%Z -> (length (head n l) <= Z.to_nat n)%nat.
Proof.
  intros Hn. unfold head. destruct (0 <=? n)%Z eqn:E.
  - rewrite length_firstn. lia.
  - apply Z.leb_gt in E. lia.
Qed.

Lemma head_split {A} (n : Z) (l : list A) :
  (0 < n)%Z -> l = head n l ++ skipn (Z.to_nat n) l.
Proof.
  intros Hn. unfold head. destruct (0 <=? n)%Z eqn:E.
  - symmetry. apply firstn_skipn.
  - apply Z.leb_gt in E. lia.
Qed.

Lemma sorted_app_pairs {A} (P : A -> A -> Prop) (l1 l2 : list A) x y :
  StronglySorted P (l1 ++ l2) -> In x l1 -> In y l2 -> P x y.
Proof.
  intros Hs Hx Hy.
  destruct (in_split _ _ Hx) as [a [b ->]].
  destruct (in_split _ _ Hy) as [c [d ->]].
  apply (sorted_pairs P _ Hs a x (b ++ c) y d).
  rewrite <- !app_assoc. reflexivity.
Qed.

End ProductTableFacts.

(** C5 as stated fails.  The ranking runs on the revenue column after it
    was rounded to cents: of two products whose sums differ below the cent
    the smaller one can be the one kept, and whatever the sort does with
    equal column values, one of the two frames shows it.  And a sort that
    is not stable keeps the larger key of two products with equal sums. *)
Lemma top_products_not_as_claimed :
  (~ exists S : Sorter,
        sorter_ok S
        /\ top_products_claimed near_tie_a 1
                                (analyze_top_products S near_tie_a 1)
        /\ top_products_claimed near_tie_b 1
                                (analyze_top_products S near_tie_b 1))
  /\ (exists S : Sorter,
         sorter_ok S
         /\ ~ top_products_claimed exact_tie 1
                                   (analyze_top_products S exact_tie 1)).
Proof.
  split.
  - intros [S [Hok [[_ Ha] [_ Hb]]]]. unfold analyze_top_products in Ha, Hb.
    assert (E : products_agg near_tie_b = products_agg near_tie_a)
      by (vm_compute; reflexivity).
    rewrite E in Hb.
    pose proof (sort_values_perm S Hok Products.Total_Revenue
                                 (products_agg near_tie_a)) as P.
    remember (sort_values Products.Total_Revenue (products_agg near_tie_a))
      as t eqn:Et.
    clear Et E. vm_compute in P.
    apply Permutation_length_2_inv in P. destruct P as [-> | ->].
    + destruct (Ha _ ("B", "B") (or_introl eq_refl)) as [L | [L _]];
        try (vm_compute in L; discriminate).
      * vm_compute. tauto.
      * vm_compute. intros [X | []]. discriminate.
    + destruct (Hb _ ("A", "A") (or_introl eq_refl)) as [L | [L _]];
        try (vm_compute in L; discriminate).
      * vm_compute. tauto.
      * vm_compute. intros [X | []]. discriminate.
  - exists reversing_sorter. split; [exact reversing_sorter_ok|].
    intros [_ H].
    destruct (H (Products.mk ("B", "B") 100.00 1 1 (Some 100.00)) ("A", "A"))
      as [L | [_ L]]; try (vm_compute in L; discriminate).
    + vm_compute. tauto.
    + vm_compute. tauto.
    + vm_compute. intros [X | []]. discriminate.
Qed.

(** C5, amended. For positive [top_n] the result has at most [top_n] rows;
    its [Total_Revenue] column holds each product's summed revenue rounded
    to two decimals, and every row kept has a column value at least that
    of every row left out.  Under a stable sort, a row kept and a row left
    out with equal column values are in ascending key order. *)
Theorem top_products_truncation (S : Sorter) (df : DataFrame) (top_n : Z) :
  sorter_ok S ->
  (0 < top_n)%Z ->
  let top := analyze_top_products S df top_n in
  (length top <= Z.to_nat top_n)%nat
  /\ (forall r, In r top ->
                Products.Total_Revenue r
                = round2 (summed_revenue product_key df (Products.key r)))
  /\ exists excluded,
      Permutation (products_agg df) (top ++ excluded)
      /\ (forall r e, In r top -> In e excluded ->
                      Products.Total_Revenue e <= Products.Total_Revenue r)
      /\ (sorter_stable S ->
          forall r e, In r top -> In e excluded ->
                      Products.Total_Revenue r == Products.Total_Revenue e ->
                      key_lt (Products.key r) (Products.key e)).
Proof.
  intros Hok Hn top. unfold top, analyze_top_products.
  set (full := sort_values Products.Total_Revenue (products_agg df)).
  pose proof (head_split top_n full Hn) as Hsplit.
  split; [apply head_length; exact Hn|]. split.
  - intros r Hr. apply products_agg_total.
    apply (sort_values_In S Hok Products.Total_Revenue).
    fold full. rewrite Hsplit. apply in_or_app. left. exact Hr.
  - exists (skipn (Z.to_nat top_n) full). split; [|split].
    + rewrite <- Hsplit. apply (sort_values_perm S Hok).
    + intros r e Hr He.
      pose proof (sort_values_sorted S Hok Products.Total_Revenue
                                     (products_agg df)) as Hs.
      fold full in Hs. rewrite Hsplit in Hs.
      apply (sorted_app_pairs _ _ _ r e Hs Hr He).
    + intros Hst r e Hr He Heq.
      pose proof (stable_sort_keeps_input_order
                    S Hok Hst Products.Total_Revenue
                    (fun x y => key_lt (Products.key x) (Products.key y))
                    (products_agg df) (products_agg_keys_sorted df)) as Hs.
      fold full in Hs. rewrite Hsplit in Hs.
      destruct (sorted_app_pairs _ _ _ r e Hs Hr He) as [L | [_ L]];
        [lra|exact L].
Qed.

Lemma top_products_truncation_witness :
  (length (analyze_top_products stable_sorter six_groups 2) <= 2)%nat
  /\ map Products.key (analyze_top_products stable_sorter six_groups 2)
     = [("A", "A"); ("B", "B")].
Proof.
  pose proof (top_products_truncation stable_sorter six_groups 2
                                      stable_sorter_ok ltac:(lia)) as [H _].
  split; [exact H|]. vm_compute. reflexivity.
Defined.

(* ===================================================================== *)
(** * What cleaning keeps and what it changes *)
(* ===================================================================== *)

Section CleanedFrameFacts.

Lemma count_true_isnull_zero df :
  count_true (isnull df) = 0%nat ->
  Forall (fun r => Customer_Age_Group r <> None) df.
Proof.
  intros H. apply Forall_forall. intros r Hr.
  pose proof (count_true_map_zero _ _ H r Hr) as E. cbn in E.
  destruct (Customer_Age_Group r); [discriminate|discriminate].
Qed.

Lemma handle_missing_same_order df :
  Forall2 same_order df (fst (handle_missing df)).
Proof.
  unfold handle_missing.
  destruct (0 <? count_true (isnull df))%nat eqn:E; cbn [fst].
  - unfold fillna. apply Forall2_map_In. intros r _.
    unfold same_order. destruct (Customer_Age_Group r) eqn:A; cbn;
      rewrite ?A; repeat split.
  - apply Nat.ltb_ge in E.
    assert (Z : count_true (isnull df) = 0%nat) by lia.
    pose proof (count_true_isnull_zero df Z) as F.
    rewrite <- (map_id df) at 2. apply Forall2_map_In. intros r Hr.
    rewrite Forall_forall in F. specialize (F r Hr).
    unfold same_order. destruct (Customer_Age_Group r); [|contradiction].
    repeat split.
Qed.

Lemma drop_duplicates_from_subseq seen df :
  Subseq (drop_duplicates_from seen df) df.
Proof.
  revert seen. induction df as [|r t IH]; intros seen; cbn;
    [constructor|].
  destruct (existsb (Row_eqb r) seen); constructor; apply IH.
Qed.

Lemma Subseq_refl {A} (l : list A) : Subseq l l.
Proof. induction l; constructor; assumption. Qed.

Lemma Subseq_In {A} (s l : list A) x : Subseq s l -> In x s -> In x l.
Proof.
  induction 1; cbn; intros Hx; [assumption| |right; auto].
  destruct Hx as [->|Hx]; [left; reflexivity|right; auto].
Qed.

Lemma Subseq_length {A} (s l : list A) :
  Subseq s l -> (length s <= length l)%nat.
Proof. induction 1; cbn; lia. Qed.

Lemma remove_duplicates_subseq df : Subseq (fst (remove_duplicates df)) df.
Proof.
  unfold remove_duplicates. destruct (0 <? _)%nat; cbn [fst].
  - apply drop_duplicates_from_subseq.
  - apply Subseq_refl.
Qed.

Lemma Forall2_subseq_pullback {A B} (R : A -> B -> Prop) l l' s' :
  Forall2 R l l' -> Subseq s' l' ->
  exists s, Subseq s l /\ Forall2 R s s'.
Proof.
  intros HF HS. revert l HF.
  induction HS as [|y s' l' HS IH|y s' l' HS IH]; intros l HF.
  - inversion HF; subst. exists []. split; constructor.
  - inversion HF as [|x ? l0 ? Hxy HF']; subst.
    destruct (IH l0 HF') as [s [Hs HR]].
    exists (x :: s). split; constructor; assumption.
  - inversion HF as [|x ? l0 ? Hxy HF']; subst.
    destruct (IH l0 HF') as [s [Hs HR]].
    exists s. split; [constructor; assumption|assumption].
Qed.

Lemma Forall2_trans_map {A} (R : A -> A -> Prop) (g : A -> A) l l' :
  (forall x y, R x y -> R x (g y)) -> Forall2 R l l' -> Forall2 R l (map g l').
Proof. apply Forall2_map_r. Qed.

Lemma same_order_set_total r c v :
  same_order r c -> same_order r (set_Total_Amount c v).
Proof. intros H. exact H. Qed.

Lemma same_order_set_derived r c d :
  same_order r c -> same_order r (set_derived c d).
Proof. intros H. exact H. Qed.

Lemma handle_outliers_same_order l df :
  Forall2 same_order l df -> Forall2 same_order l (fst (handle_outliers df)).
Proof.
  intros H. unfold handle_outliers.
  destruct (iqr_bounds df) as [[lo hi]|]; [|exact H].
  destruct (0 <? _)%nat; cbn [fst]; [|exact H].
  unfold cap_above, cap_below. apply Forall2_map_r.
  - intros x y Hxy. destruct (Qlt_le_dec hi (Total_Amount y)); [|exact Hxy].
    apply same_order_set_total. exact Hxy.
  - apply Forall2_map_r; [|exact H].
    intros x y Hxy. destruct (Qlt_le_dec (Total_Amount y) lo); [|exact Hxy].
    apply same_order_set_total. exact Hxy.
Qed.

Lemma clean_rows_trace df :
  exists kept : DataFrame,
    Subseq kept df /\ Forall2 same_order kept (fst (clean_sales_data df)).
Proof.
  rewrite clean_sales_data_unfold. cbn [fst]. unfold deduplicated.
  destruct (Forall2_subseq_pullback same_order df _ _
              (handle_missing_same_order df)
              (remove_duplicates_subseq (fst (handle_missing df))))
    as [kept [Hs HR]].
  exists kept. split; [exact Hs|].
  unfold add_derived. apply Forall2_map_r.
  - intros x y Hxy. apply same_order_set_derived. exact Hxy.
  - apply handle_outliers_same_order. exact HR.
Qed.

Lemma drop_duplicates_from_distinct seen df :
  no_duplicate_rows (drop_duplicates_from seen df)
  /\ Forall (fun r => Forall (fun s => Row_eqb r s = false) seen)
            (drop_duplicates_from seen df).
Proof.
  revert seen. induction df as [|r t IH]; intros seen; cbn.
  - split; constructor.
  - destruct (IH (r :: seen)) as [Hnd Hall].
    assert (Hrest : Forall (fun x => Forall (fun s => Row_eqb x s = false) seen)
                           (drop_duplicates_from (r :: seen) t)).
    { eapply Forall_impl; [|exact Hall]. intros x Hx.
      inversion Hx; assumption. }
    destruct (existsb (Row_eqb r) seen) eqn:E.
    + split; assumption.
    + split.
      * constructor; [|exact Hnd].
        eapply Forall_impl; [|exact Hall]. intros x Hx.
        inversion Hx; assumption.
      * constructor; [|exact Hrest].
        apply Forall_forall. intros s Hs.
        destruct (Row_eqb r s) eqn:X; [|reflexivity].
        assert (existsb (Row_eqb r) seen = true)
          by (apply existsb_exists; exists s; tauto).
        congruence.
Qed.

Lemma drop_duplicates_from_unflagged seen df :
  count_true (duplicated_from seen df) = 0%nat ->
  drop_duplicates_from seen df = df.
Proof.
  revert seen. induction df as [|r t IH]; intros seen; [reflexivity|].
  cbn [duplicated_from drop_duplicates_from]. rewrite count_true_cons.
  destruct (existsb (Row_eqb r) seen); [discriminate|].
  cbn. intros H. rewrite IH by exact H. reflexivity.
Qed.

Lemma remove_duplicates_distinct df :
  no_duplicate_rows (fst (remove_duplicates df)).
Proof.
  unfold remove_duplicates.
  destruct (0 <? count_true (duplicated df))%nat eqn:E; cbn [fst].
  - apply drop_duplicates_from_distinct.
  - apply Nat.ltb_ge in E.
    assert (Z : count_true (duplicated df) = 0%nat) by lia.
    rewrite <- (drop_duplicates_from_unflagged [] df Z).
    apply drop_duplicates_from_distinct.
Qed.

Lemma Forall2_clamped_inside lo hi (l l' : DataFrame) :
  lo <= hi ->
  Forall2 (fun r c => clamped lo hi (Total_Amount r) (Total_Amount c)) l l' ->
  Forall (fun c => lo <= Total_Amount c <= hi) l'.
Proof.
  intros Hle. induction 1 as [|r c l l' [H1 [H2 H3]] _ IH];
    constructor; [|exact IH].
  destruct (Qlt_le_dec (Total_Amount r) lo) as [L|L].
  - rewrite (H1 L). split; lra.
  - destruct (Qlt_le_dec hi (Total_Amount r)) as [U|U].
    + rewrite (H2 U). split; lra.
    + rewrite (H3 (conj L U)). split; assumption.
Qed.

Lemma clean_totals_clamped df lo hi :
  iqr_bounds (deduplicated df) = Some (lo, hi) ->
  Forall2 (fun r c => clamped lo hi (Total_Amount r) (Total_Amount c))
          (deduplicated df) (fst (clean_sales_data df)).
Proof.
  intros Hb. rewrite clean_sales_data_unfold. cbn [fst].
  unfold add_derived. apply Forall2_map_r.
  - intros x y H. exact H.
  - apply handle_outliers_clamped. exact Hb.
Qed.

Lemma derive_set_derived r d : derive (set_derived r d) = derive r.
Proof. reflexivity. Qed.

End CleanedFrameFacts.

(** X1. Cleaning never reorders or invents rows and never writes the
    columns it is not about: the cleaned rows are, in order, rows of the
    input with the same ten source columns, their age group kept, or
    "Unknown" where it was blank. *)
Theorem clean_keeps_rows_in_order (df : DataFrame) :
  exists kept : DataFrame,
    Subseq kept df /\ Forall2 same_order kept (fst (clean_sales_data df)).
Proof.
  destruct (clean_rows_trace df) as [kept [Hs HR]].
  exists kept. split; assumption.
Qed.

(** X2. No cleaned row has a blank age group. *)
Theorem cleaned_rows_have_age_group (df : DataFrame) :
  Forall (fun r => Customer_Age_Group r <> None) (fst (clean_sales_data df)).
Proof.
  destruct (clean_rows_trace df) as [kept [_ HR]].
  clear - HR. induction HR as [|r c l l' Hrc _ IH]; constructor; [|exact IH].
  destruct Hrc as [_ [_ [_ [_ [_ [_ [_ [_ [_ [_ E]]]]]]]]]].
  rewrite E. discriminate.
Qed.

(** X3. After the duplicate step no row of the frame equals an earlier
    one, whether or not [drop_duplicates] had to run. *)
Theorem deduplicated_rows_are_distinct (df : DataFrame) :
  no_duplicate_rows (deduplicated df).
Proof.
  unfold deduplicated. apply remove_duplicates_distinct.
Qed.

(** X4. Every cleaned [Total_Amount] lies within the bounds computed from
    the quartiles of the deduplicated frame. *)
Theorem cleaned_totals_within_bounds (df : DataFrame) :
  match iqr_bounds (deduplicated df) with
  | Some (lower_bound, upper_bound) =>
      Forall (fun r => lower_bound <= Total_Amount r <= upper_bound)
             (fst (clean_sales_data df))
  | None => fst (clean_sales_data df) = []
  end.
Proof.
  destruct (iqr_bounds (deduplicated df)) as [[lo hi]|] eqn:Hb.
  - eapply Forall2_clamped_inside.
    + eapply iqr_bounds_ordered. exact Hb.
    + apply clean_totals_clamped. exact Hb.
  - apply iqr_bounds_none in Hb. rewrite clean_sales_data_unfold, Hb.
    reflexivity.
Qed.

Lemma clean_nil_iff (df : DataFrame) :
  fst (clean_sales_data df) = [] <-> df = [].
Proof.
  split.
  - intros E. destruct df as [|r t]; [reflexivity|]. exfalso.
    assert (L : length (fst (clean_sales_data (r :: t))) = 0%nat)
      by (rewrite E; reflexivity).
    rewrite clean_sales_data_unfold in L. cbn [fst] in L.
    unfold add_derived in L. rewrite length_map, handle_outliers_length in L.
    unfold deduplicated, remove_duplicates, handle_missing in L.
    destruct (0 <? count_true (isnull (r :: t)))%nat; cbn [fst] in L;
      destruct (0 <? _)%nat in L; cbn in L; discriminate.
  - intros ->. reflexivity.
Qed.

Lemma cleaned_rows_derived (df : DataFrame) :
  Forall (fun r => derived r = Some (derive r)) (fst (clean_sales_data df)).
Proof.
  rewrite clean_sales_data_unfold. cbn [fst]. unfold add_derived.
  apply Forall_forall. intros c Hc. apply in_map_iff in Hc.
  destruct Hc as [r [<- _]]. reflexivity.
Qed.

Lemma cleaned_rows_age (df : DataFrame) :
  Forall (fun r => Customer_Age_Group r <> None) (fst (clean_sales_data df)).
Proof.
  destruct (clean_rows_trace df) as [kept [_ HR]].
  clear - HR. induction HR as [|r c l l' Hrc _ IH]; constructor; [|exact IH].
  destruct Hrc as [_ [_ [_ [_ [_ [_ [_ [_ [_ [_ E]]]]]]]]]].
  rewrite E. discriminate.
Qed.

(** X5. Cleaning never empties a frame: the cleaned frame is empty
    exactly when the input is. *)
Theorem clean_empty_iff (df : DataFrame) :
  fst (clean_sales_data df) = [] <-> df = [].
Proof.
  apply clean_nil_iff.
Qed.

Section CappedRowCount.

Lemma combine_map_r {A B} (g : A -> B) (l : list A) :
  combine l (map g l) = map (fun x => (x, g x)) l.
Proof. induction l as [|x t IH]; cbn; [reflexivity|]. rewrite IH. reflexivity. Qed.

Lemma changed_totals_map (g : Row -> Row) (df : DataFrame) :
  changed_totals df (map g df)
  = length (filter (fun r => negb (Qeq_bool (Total_Amount r)
                                            (Total_Amount (g r)))) df).
Proof.
  unfold changed_totals. rewrite combine_map_r.
  induction df as [|r t IH]; cbn; [reflexivity|].
  destruct (negb _); cbn; rewrite IH; reflexivity.
Qed.

Lemma count_true_map_filter {A} (p : A -> bool) (l : list A) :
  count_true (map p l) = length (filter p l).
Proof.
  induction l as [|x t IH]; [reflexivity|].
  cbn [map filter]. rewrite count_true_cons.
  destruct (p x); cbn; rewrite IH; reflexivity.
Qed.

Lemma Qeq_bool_refl (x : Q) : Qeq_bool x x = true.
Proof. apply Qeq_bool_iff. reflexivity. Qed.

Lemma Qeq_bool_lt (x y : Q) : x < y -> Qeq_bool x y = false.
Proof.
  intros L. destruct (Qeq_bool x y) eqn:E; [|reflexivity].
  apply Qeq_bool_iff in E. lra.
Qed.

Lemma Qeq_bool_gt (x y : Q) : y < x -> Qeq_bool x y = false.
Proof.
  intros L. destruct (Qeq_bool x y) eqn:E; [|reflexivity].
  apply Qeq_bool_iff in E. lra.
Qed.

Lemma capped_row_changed lo hi r :
  lo <= hi ->
  negb (Qeq_bool
          (Total_Amount r)
          (Total_Amount
             ((fun r1 => if Qlt_le_dec hi (Total_Amount r1)
                         then set_Total_Amount r1 hi else r1)
                (if Qlt_le_dec (Total_Amount r) lo
                 then set_Total_Amount r lo else r))))
  = is_outlier lo hi r.
Proof.
  intros Hle. unfold is_outlier.
  destruct (Qlt_le_dec (Total_Amount r) lo) as [L|L]; cbn.
  - destruct (Qlt_le_dec hi lo); [lra|]. cbn.
    rewrite (Qeq_bool_lt _ _ L). reflexivity.
  - destruct (Qlt_le_dec hi (Total_Amount r)) as [U|U]; cbn.
    + rewrite (Qeq_bool_gt _ _ U). reflexivity.
    + rewrite Qeq_bool_refl. reflexivity.
Qed.

Lemma total_after_derived (x : Row) :
  Total_Amount (set_derived x (Some (derive x))) = Total_Amount x.
Proof. reflexivity. Qed.

Lemma unchanged_totals (df : DataFrame) :
  changed_totals df (add_derived df) = 0%nat.
Proof.
  unfold add_derived. rewrite changed_totals_map.
  apply length_zero_iff_nil.
  induction df as [|r t IH]; [reflexivity|]. cbn [filter].
  rewrite total_after_derived, Qeq_bool_refl. cbn. exact IH.
Qed.

Lemma handle_outliers_count df :
  snd (handle_outliers df)
  = changed_totals df (add_derived (fst (handle_outliers df))).
Proof.
  unfold handle_outliers.
  destruct (iqr_bounds df) as [[lo hi]|] eqn:Hb.
  - pose proof (iqr_bounds_ordered _ _ _ Hb) as Hle.
    destruct (0 <? count_true (map (is_outlier lo hi) df))%nat eqn:E;
      cbn [fst snd].
    + unfold add_derived, cap_above, cap_below. rewrite !map_map.
      rewrite changed_totals_map, count_true_map_filter.
      f_equal. apply filter_ext. intros r. symmetry.
      rewrite total_after_derived.
      apply (capped_row_changed lo hi r Hle).
    + apply Nat.ltb_ge in E. rewrite unchanged_totals. lia.
  - cbn [fst snd]. rewrite unchanged_totals. reflexivity.
Qed.

End CappedRowCount.

(** X6. The count of capped outliers the cleaner prints is the number of
    rows whose [Total_Amount] it changed. *)
Theorem outliers_capped_counts_changed_rows (df : DataFrame) :
  outliers_capped (snd (clean_sales_data df))
  = changed_totals (deduplicated df) (fst (clean_sales_data df)).
Proof.
  rewrite clean_sales_data_unfold. cbn [fst snd outliers_capped].
  apply handle_outliers_count.
Qed.

(* ===================================================================== *)
(** * Tables against the KPIs *)
(* ===================================================================== *)

Section GroupbyPartition.
Context {K : Type} `{Key K} (by_ : Row -> K).

Lemma group_insert_concat k r gs :
  Permutation (concat (map snd (group_insert k r gs)))
              (r :: concat (map snd gs)).
Proof.
  induction gs as [|[k0 rows0] t IH]; cbn.
  - reflexivity.
  - destruct (key_compare k k0); cbn.
    + rewrite <- app_assoc. cbn.
      rewrite <- Permutation_middle. reflexivity.
    + reflexivity.
    + rewrite IH. rewrite <- Permutation_middle. reflexivity.
Qed.

(** The groups are the rows of the frame, each exactly once. *)
Lemma groupby_concat df :
  Permutation (concat (map snd (groupby by_ df))) df.
Proof.
  unfold groupby.
  assert (G : forall rest gs,
             Permutation
               (concat (map snd (fold_left
                                   (fun gs r => group_insert (by_ r) r gs)
                                   rest gs)))
               (concat (map snd gs) ++ rest)).
  { induction rest as [|r rest IH]; intros gs; cbn.
    - rewrite app_nil_r. reflexivity.
    - rewrite IH, group_insert_concat.
      rewrite <- Permutation_middle. reflexivity. }
  apply (G df []).
Qed.

Lemma sum_nat_lengths (gs : list (K * list Row)) :
  sum_nat (map (fun g => length (snd g)) gs)
  = length (concat (map snd gs)).
Proof.
  unfold sum_nat. induction gs as [|g t IH]; cbn; [reflexivity|].
  rewrite length_app, IH. reflexivity.
Qed.

Lemma sumZ_app (a b : list Z) : sumZ (a ++ b) = (sumZ a + sumZ b)%Z.
Proof.
  unfold sumZ. induction a as [|x t IH]; cbn; [reflexivity|].
  rewrite IH. lia.
Qed.

Lemma sumZ_perm (a b : list Z) : Permutation a b -> sumZ a = sumZ b.
Proof. unfold sumZ. induction 1; cbn; lia. Qed.

Lemma sum_nat_perm (a b : list nat) : Permutation a b -> sum_nat a = sum_nat b.
Proof. unfold sum_nat. induction 1; cbn; lia. Qed.

Lemma sumZ_groups (f : Row -> Z) (gs : list (K * list Row)) :
  sumZ (map (fun g => sumZ (map f (snd g))) gs)
  = sumZ (map f (concat (map snd gs))).
Proof.
  induction gs as [|g t IH]; [reflexivity|].
  cbn [map concat]. rewrite map_app, sumZ_app, <- IH. reflexivity.
Qed.

Lemma sum_groups (f : Row -> Q) (gs : list (K * list Row)) :
  sum (map (fun g => sum (map f (snd g))) gs)
  == sum (map f (concat (map snd gs))).
Proof.
  induction gs as [|g t IH]; [reflexivity|].
  cbn [map concat]. rewrite map_app, sum_app, <- IH. reflexivity.
Qed.

Lemma groupby_count_total df :
  sum_nat (map (fun g => length (snd g)) (groupby by_ df)) = length df.
Proof.
  rewrite sum_nat_lengths. apply Permutation_length, groupby_concat.
Qed.

Lemma groupby_quantity_total df :
  sumZ (map (fun g => sumZ (map Quantity (snd g))) (groupby by_ df))
  = sumZ (map Quantity df).
Proof.
  rewrite sumZ_groups. apply sumZ_perm, Permutation_map, groupby_concat.
Qed.

Lemma groupby_revenue_total df :
  sum (map (fun g => sum (map Total_Amount (snd g))) (groupby by_ df))
  == sum (map Total_Amount df).
Proof.
  rewrite sum_groups. apply sum_perm, Permutation_map, groupby_concat.
Qed.

End GroupbyPartition.

Section TableTotals.
Context (S : Sorter) (Hok : sorter_ok S).

Lemma add_revenue_share_base {K} (t : list (Revenue.agg K)) :
  map Revenue.base (add_revenue_share t) = t.
Proof.
  unfold add_revenue_share. rewrite map_map. cbn. apply map_id.
Qed.

Lemma add_usage_base (t : list Payment.agg) :
  map Payment.base (add_usage t) = t.
Proof.
  unfold add_usage. rewrite map_map. cbn. apply map_id.
Qed.

Lemma revenue_table_counts {K} `{Key K} (by_ : Row -> K) df :
  sum_nat (map (fun r => Revenue.Order_Count (Revenue.base r))
               (add_revenue_share
                  (sort_values Revenue.Total_Revenue (revenue_agg by_ df))))
  = length df
  /\ sumZ (map (fun r => Revenue.Total_Quantity (Revenue.base r))
               (add_revenue_share
                  (sort_values Revenue.Total_Revenue (revenue_agg by_ df))))
     = sumZ (map Quantity df).
Proof.
  rewrite <- !(map_map Revenue.base). rewrite !add_revenue_share_base.
  pose proof (sort_values_perm S Hok Revenue.Total_Revenue
                               (revenue_agg by_ df)) as P.
  split.
  - rewrite <- (sum_nat_perm _ _ (Permutation_map Revenue.Order_Count P)).
    unfold revenue_agg. rewrite map_map. cbn. unfold count.
    rewrite <- (groupby_count_total by_ df). f_equal.
    apply map_ext. intros g. apply length_map.
  - rewrite <- (sumZ_perm _ _ (Permutation_map Revenue.Total_Quantity P)).
    unfold revenue_agg. rewrite map_map. cbn.
    apply groupby_quantity_total.
Qed.

Lemma payment_table_counts df :
  sum_nat (map (fun r => Payment.Order_Count (Payment.base r))
               (analyze_payment_methods S df))
  = length df.
Proof.
  unfold analyze_payment_methods.
  rewrite <- (map_map Payment.base). rewrite add_usage_base.
  pose proof (sort_values_perm S Hok Payment.Total_Revenue
                               (payment_agg df)) as P.
  rewrite <- (sum_nat_perm _ _ (Permutation_map Payment.Order_Count P)).
  unfold payment_agg. rewrite map_map. cbn. unfold count.
  rewrite <- (groupby_count_total Payment_Method df). f_equal.
  apply map_ext. intros g. apply length_map.
Qed.

End TableTotals.

(** X7. Grouping loses and repeats no order: in the category table, the
    region table and the payment table the order counts add up to the
    KPI [Total_Orders], and the quantities of the category and region
    tables add up to the KPI [Total_Quantity_Sold]. *)
Theorem tables_partition_the_orders (S : Sorter) (df : DataFrame) :
  sorter_ok S ->
  let kpis := calculate_kpis df in
  sum_nat (map (fun r => Revenue.Order_Count (Revenue.base r))
               (analyze_by_category S df)) = Kpis.Total_Orders kpis
  /\ sumZ (map (fun r => Revenue.Total_Quantity (Revenue.base r))
               (analyze_by_category S df)) = Kpis.Total_Quantity_Sold kpis
  /\ sum_nat (map (fun r => Revenue.Order_Count (Revenue.base r))
                  (analyze_by_region S df)) = Kpis.Total_Orders kpis
  /\ sumZ (map (fun r => Revenue.Total_Quantity (Revenue.base r))
               (analyze_by_region S df)) = Kpis.Total_Quantity_Sold kpis
  /\ sum_nat (map (fun r => Payment.Order_Count (Payment.base r))
                  (analyze_payment_methods S df)) = Kpis.Total_Orders kpis.
Proof.
  intros Hok. cbn.
  destruct (revenue_table_counts S Hok Category df) as [C1 C2].
  destruct (revenue_table_counts S Hok Region df) as [R1 R2].
  pose proof (payment_table_counts S Hok df) as P.
  unfold analyze_by_category, analyze_by_region. repeat split; assumption.
Qed.

Lemma tables_partition_the_orders_witness :
  sum_nat (map (fun r => Revenue.Order_Count (Revenue.base r))
               (analyze_by_category stable_sorter books_frame)) = 5%nat.
Proof.
  exact (proj1 (tables_partition_the_orders stable_sorter books_frame
                                            stable_sorter_ok)).
Defined.

Section DistinctKeys.

Lemma unique_In (l : list string) (x : string) :
  In x (unique String.eqb l) <-> In x l.
Proof.
  induction l as [|a t IH]; cbn; [tauto|].
  rewrite filter_In, IH. split.
  - intros [E|[Hx _]]; [left; exact E|right; exact Hx].
  - intros [E|Hx]; [left; exact E|].
    destruct (String.eqb a x) eqn:Eq.
    + left. apply String.eqb_eq. exact Eq.
    + right. split; [exact Hx|reflexivity].
Qed.

Lemma unique_NoDup (l : list string) : NoDup (unique String.eqb l).
Proof.
  induction l as [|a t IH]; cbn; constructor.
  - rewrite filter_In. intros [_ E]. rewrite String.eqb_refl in E.
    discriminate.
  - apply NoDup_filter. exact IH.
Qed.

Lemma sorted_keys_NoDup {K} `{KeyLaws K} (ks : list K) :
  StronglySorted key_lt ks -> NoDup ks.
Proof.
  induction 1 as [|k t Hs IH Hall]; constructor; [|exact IH].
  intros Hin. rewrite Forall_forall in Hall.
  apply (key_lt_irrefl k). apply Hall. exact Hin.
Qed.

Lemma groupby_keys_In {K} `{KeyLaws K} (by_ : Row -> K) df k :
  In k (map fst (groupby by_ df)) <-> exists r, In r df /\ by_ r = k.
Proof.
  split.
  - intros Hk. apply in_map_iff in Hk. destruct Hk as [[k' rows] [E Hg]].
    cbn in E. subst k'.
    destruct (groupby_rows by_ df k rows Hg) as [-> Hne].
    unfold rows_of in Hne.
    destruct (filter (fun r => key_eqb (by_ r) k) df) as [|r t] eqn:F;
      [contradiction|].
    assert (Hr : In r (filter (fun r => key_eqb (by_ r) k) df))
      by (rewrite F; left; reflexivity).
    apply filter_In in Hr. destruct Hr as [Hr E].
    exists r. split; [exact Hr|]. apply key_eqb_eq. exact E.
  - intros [r [Hr <-]]. apply groupby_complete. exact Hr.
Qed.

Lemma groupby_keys_count (by_ : Row -> string) df :
  length (groupby by_ df) = nunique String.eqb (map by_ df).
Proof.
  unfold nunique. rewrite <- (length_map fst).
  apply Permutation_length. apply NoDup_Permutation.
  - apply sorted_keys_NoDup. apply groupby_keys_sorted.
  - apply unique_NoDup.
  - intros k. rewrite groupby_keys_In, unique_In, in_map_iff.
    split; intros [r [A B]]; exists r; tauto.
Qed.

Lemma nunique_le (l : list string) :
  (nunique String.eqb l <= length l)%nat.
Proof.
  unfold nunique. apply NoDup_incl_length; [apply unique_NoDup|].
  intros x. apply unique_In.
Qed.

End DistinctKeys.

(** X8. The category table has one row per category that occurs in the
    frame, and no other: its keys are distinct, they are the categories
    of the rows, and their number is the KPI [Unique_Categories], which
    never exceeds [Total_Orders]. *)
Theorem category_table_keys (S : Sorter) (df : DataFrame) :
  sorter_ok S ->
  NoDup (map category_key (analyze_by_category S df))
  /\ (forall k, In k (map category_key (analyze_by_category S df))
                <-> exists r, In r df /\ Category r = k)
  /\ length (analyze_by_category S df)
     = Kpis.Unique_Categories (calculate_kpis df)
  /\ (Kpis.Unique_Categories (calculate_kpis df)
      <= Kpis.Total_Orders (calculate_kpis df))%nat.
Proof.
  intros Hok. unfold analyze_by_category, category_key.
  assert (E : map (fun r => Revenue.key (Revenue.base r))
                  (add_revenue_share
                     (sort_values Revenue.Total_Revenue
                                  (revenue_agg Category df)))
              = map Revenue.key (sort_values Revenue.Total_Revenue
                                             (revenue_agg Category df))).
  { rewrite <- (map_map Revenue.base). rewrite add_revenue_share_base.
    reflexivity. }
  rewrite E.
  assert (P : Permutation (map fst (groupby Category df))
                          (map Revenue.key
                               (sort_values Revenue.Total_Revenue
                                            (revenue_agg Category df)))).
  { rewrite <- (Permutation_map Revenue.key
                  (sort_values_perm S Hok Revenue.Total_Revenue _)).
    unfold revenue_agg. rewrite map_map. cbn. reflexivity. }
  split; [|split; [|split]].
  - eapply Permutation_NoDup; [exact P|].
    apply sorted_keys_NoDup. apply groupby_keys_sorted.
  - intros k. rewrite <- (groupby_keys_In Category df k).
    split; apply Permutation_in; [symmetry|]; exact P.
  - unfold add_revenue_share. rewrite length_map.
    rewrite (sort_values_length S Hok). unfold revenue_agg.
    rewrite length_map. cbn. apply groupby_keys_count.
  - cbn. rewrite <- (length_map Category df). apply nunique_le.
Qed.

Lemma category_table_keys_witness :
  map category_key (analyze_by_category stable_sorter six_groups)
  = ["A"; "B"; "C"; "D"; "E"; "F"]
  /\ NoDup (map category_key (analyze_by_category stable_sorter six_groups)).
Proof.
  split; [vm_compute; reflexivity|].
  exact (proj1 (category_table_keys stable_sorter six_groups
                                    stable_sorter_ok)).
Defined.

Section RevenueTotals.
Context (S : Sorter) (Hok : sorter_ok S).

Lemma revenue_agg_total_near {K} `{Key K} (by_ : Row -> K) df :
  Qabs (sum (map Revenue.Total_Revenue (revenue_agg by_ df))
        - sum (map Total_Amount df))
  <= (1 # 200) * Q_of_nat (length (revenue_agg by_ df)).
Proof.
  unfold revenue_agg. rewrite length_map.
  set (gs := groupby by_ df).
  assert (E : map Revenue.Total_Revenue
                  (map (fun g : K * list Row =>
                          Revenue.mk (fst g)
                            (round2 (sum (map Total_Amount (snd g))))
                            (round2_opt (mean (map Total_Amount (snd g))))
                            (count (map Total_Amount (snd g)))
                            (sumZ (map Quantity (snd g)))) gs)
              = map round2
                    (map (fun g => sum (map Total_Amount (snd g))) gs)).
  { rewrite !map_map. reflexivity. }
  rewrite E.
  pose proof (sum_round2_near
                (map (fun g => sum (map Total_Amount (snd g))) gs))
    as [L U].
  rewrite length_map in L, U.
  pose proof (groupby_revenue_total by_ df) as T. fold gs in T.
  apply Qabs_Qle_condition. split; lra.
Qed.

End RevenueTotals.

(** X9. The revenue column of the category table and of the region table
    adds up to the KPI [Total_Revenue] within half a cent per group: the
    only difference is the rounding of each group's sum. *)
Theorem table_revenue_matches_kpi (S : Sorter) (df : DataFrame) :
  sorter_ok S ->
  Qabs (sum (map (fun r => Revenue.Total_Revenue (Revenue.base r))
                 (analyze_by_category S df))
        - Kpis.Total_Revenue (calculate_kpis df))
  <= (1 # 200) * Q_of_nat (length (analyze_by_category S df))
  /\ Qabs (sum (map (fun r => Revenue.Total_Revenue (Revenue.base r))
                    (analyze_by_region S df))
           - Kpis.Total_Revenue (calculate_kpis df))
     <= (1 # 200) * Q_of_nat (length (analyze_by_region S df)).
Proof.
  intros Hok.
  change (Kpis.Total_Revenue (calculate_kpis df))
    with (sum (map Total_Amount df)).
  unfold analyze_by_category, analyze_by_region.
  rewrite <- !(map_map Revenue.base). rewrite !add_revenue_share_base.
  unfold add_revenue_share. rewrite !length_map.
  rewrite !(sort_values_length S Hok).
  pose proof (sorted_revenue_total S Hok (revenue_agg Category df)) as E1.
  pose proof (sorted_revenue_total S Hok (revenue_agg Region df)) as E2.
  split; [rewrite E1|rewrite E2]; apply revenue_agg_total_near.
Qed.

Lemma table_revenue_matches_kpi_witness :
  Qabs (sum (map (fun r => Revenue.Total_Revenue (Revenue.base r))
                 (analyze_by_category stable_sorter near_tie_a))
        - Kpis.Total_Revenue (calculate_kpis near_tie_a))
  <= (1 # 200) * Q_of_nat (length (analyze_by_category stable_sorter
                                                       near_tie_a)).
Proof.
  exact (proj1 (table_revenue_matches_kpi stable_sorter near_tie_a
                                          stable_sorter_ok)).
Defined.

Section KpiAverages.

Lemma sum_inject_Z (zs : list Z) :
  sum (map inject_Z zs) == inject_Z (sumZ zs).
Proof.
  induction zs as [|z t IH]; [reflexivity|].
  change (inject_Z z + sum (map inject_Z t) == inject_Z (z + sumZ t)).
  rewrite inject_Z_plus, IH. reflexivity.
Qed.

Lemma mean_nonempty (l : list Q) :
  l <> [] ->
  exists a, mean l = Some a /\ a * Q_of_nat (length l) == sum l.
Proof.
  intros N. unfold mean, fdiv.
  assert (P : 0 < Q_of_nat (length l)).
  { apply Q_of_nat_pos. destruct l; [contradiction|cbn; lia]. }
  fold (Q_of_nat (length l)).
  destruct (Qeq_bool (Q_of_nat (length l)) 0) eqn:E.
  - apply Qeq_bool_iff in E. lra.
  - eexists. split; [reflexivity|]. field. lra.
Qed.

End KpiAverages.



(* ===================================================================== *)
(** * Time tables, table sizes and usage shares *)
(* ===================================================================== *)

Section TimeTables.

Lemma with_derived_outcome df :
  match with_derived df with
  | Ok _ => Forall (fun r => derived r <> None) df
  | Raise e => e = KeyError /\ Exists (fun r => derived r = None) df
  end.
Proof.
  unfold with_derived. induction df as [|r t IH]; cbn; [constructor|].
  destruct (derived r) as [d|] eqn:E; cbn.
  - destruct (mapM _ t) as [l|e]; cbn.
    + constructor; [congruence|exact IH].
    + destruct IH as [-> IH]. split; [reflexivity|].
      apply Exists_cons_tl. exact IH.
  - split; [reflexivity|]. apply Exists_cons_hd. exact E.
Qed.

Lemma period_agg_keys_sorted {K} `{KeyLaws K} (by_ : Row -> K) df :
  StronglySorted key_lt (map Period.key (period_agg by_ df)).
Proof.
  unfold period_agg. rewrite map_map. cbn.
  apply groupby_keys_sorted.
Qed.

Lemma period_agg_orders {K} `{Key K} (by_ : Row -> K) df :
  sum_nat (map Period.Orders (period_agg by_ df)) = length df.
Proof.
  unfold period_agg. rewrite map_map. cbn. unfold count.
  rewrite <- (groupby_count_total by_ df). f_equal.
  apply map_ext. intros g. apply length_map.
Qed.

Lemma period_agg_keys {K} `{KeyLaws K} (by_ : Row -> K) df k :
  In k (map Period.key (period_agg by_ df))
  <-> exists r, In r df /\ by_ r = k.
Proof.
  unfold period_agg. rewrite map_map. cbn.
  apply groupby_keys_In.
Qed.

End TimeTables.


Section HeadFacts.

Lemma head_nonneg_length {A} (n : Z) (l : list A) :
  (0 <= n)%Z -> length (head n l) = Nat.min (Z.to_nat n) (length l).
Proof.
  intros Hn. unfold head. destruct (0 <=? n)%Z eqn:E.
  - apply length_firstn.
  - apply Z.leb_gt in E. lia.
Qed.

Lemma head_all {A} (n : Z) (l : list A) :
  (Z.of_nat (length l) <= n)%Z -> head n l = l.
Proof.
  intros Hn. unfold head. destruct (0 <=? n)%Z eqn:E.
  - apply firstn_all2. lia.
  - apply Z.leb_gt in E. lia.
Qed.

End HeadFacts.

(** X12. For [top_n >= 0] the product table has [min top_n g] rows, [g]
    being the number of (product, category) pairs in the frame, which is
    at least the KPI [Unique_Products]; once [top_n] reaches [g] nothing
    is cut, and the order counts of the table add up to [Total_Orders]. *)
Theorem top_products_size (S : Sorter) (df : DataFrame) (top_n : Z) :
  sorter_ok S ->
  (0 <= top_n)%Z ->
  let g := length (groupby product_key df) in
  length (analyze_top_products S df top_n) = Nat.min (Z.to_nat top_n) g
  /\ (Kpis.Unique_Products (calculate_kpis df) <= g)%nat
  /\ ((Z.of_nat g <= top_n)%Z ->
      Permutation (products_agg df) (analyze_top_products S df top_n)
      /\ sum_nat (map Products.Order_Count (analyze_top_products S df top_n))
         = Kpis.Total_Orders (calculate_kpis df)).
Proof.
  intros Hok Hn g. unfold analyze_top_products.
  assert (L : length (sort_values Products.Total_Revenue (products_agg df))
              = g).
  { rewrite (sort_values_length S Hok). unfold products_agg.
    apply length_map. }
  split; [|split].
  - rewrite head_nonneg_length by exact Hn. rewrite L. reflexivity.
  - cbn. unfold nunique, g.
    rewrite <- (length_map (fun x : (string * string) * list Row =>
                              fst (fst x))).
    apply NoDup_incl_length; [apply unique_NoDup|].
    intros name Hname. apply (proj1 (unique_In _ _)) in Hname.
    apply in_map_iff in Hname. destruct Hname as [r [<- Hr]].
    pose proof (groupby_complete product_key df r Hr) as Hk.
    apply in_map_iff in Hk. destruct Hk as [x [Ex Hx]].
    apply in_map_iff. exists x. split; [rewrite Ex; reflexivity|exact Hx].
  - intros Hg. rewrite head_all by (rewrite L; exact Hg).
    pose proof (sort_values_perm S Hok Products.Total_Revenue
                                 (products_agg df)) as P.
    split; [exact P|].
    rewrite <- (sum_nat_perm _ _ (Permutation_map Products.Order_Count P)).
    unfold products_agg. rewrite map_map. cbn. unfold count.
    rewrite <- (groupby_count_total
                  (fun r => (Product_Name r, Category r)) df).
    f_equal. apply map_ext. intros x. apply length_map.
Qed.

Lemma top_products_size_witness :
  length (analyze_top_products stable_sorter six_groups 10) = 6%nat.
Proof.
  exact (proj1 (top_products_size stable_sorter six_groups 10
                                  stable_sorter_ok ltac:(lia))).
Defined.

Section RoundingOrder.

Lemma rint_mono (x y : Q) : x <= y -> (rint x <= rint y)%Z.
Proof.
  intros Hxy. destruct (Z_le_gt_dec (rint x) (rint y)) as [L|G];
    [exact L|exfalso].
  pose proof (rint_near x) as [_ Ux]. pose proof (rint_near y) as [Ly _].
  assert (B : inject_Z (rint y) + 1 <= inject_Z (rint x)).
  { rewrite <- inject_Z_succ. rewrite <- Zle_Qle. lia. }
  assert (E : x == y) by lra.
  pose proof (rint_comp x y E). lia.
Qed.

Lemma round2_mono (x y : Q) : x <= y -> round2 x <= round2 y.
Proof.
  intros Hxy. unfold round2, Qle. cbn.
  assert (M : (rint (x * 100) <= rint (y * 100))%Z)
    by (apply rint_mono; lra).
  lia.
Qed.

Lemma percentage_in_range (c T : Q) :
  0 <= c -> c <= T -> 0 < T ->
  exists u, round2_opt (times100 (fdiv c T)) = Some u /\ 0 <= u <= 100.
Proof.
  intros Hc HcT HT. unfold fdiv.
  destruct (Qeq_bool T 0) eqn:E; [apply Qeq_bool_iff in E; lra|].
  cbn. eexists. split; [reflexivity|].
  assert (R : 0 <= c / T * 100 <= 100).
  { assert (P : 0 <= c / T <= 1).
    { split.
      - apply Qle_shift_div_l; [exact HT|]. lra.
      - apply Qle_shift_div_r; [exact HT|]. lra. }
    lra. }
  assert (H0 : round2 0 == 0) by (vm_compute; reflexivity).
  assert (H100 : round2 100 == 100) by (vm_compute; reflexivity).
  pose proof (round2_mono 0 (c / T * 100) (proj1 R)) as M0.
  pose proof (round2_mono (c / T * 100) 100 (proj2 R)) as M100.
  split; lra.
Qed.

End RoundingOrder.

(** X13. On a frame with at least one row every payment method's
    ['Usage_%'] is a number between 0 and 100. *)
Theorem payment_usage_in_range (S : Sorter) (df : DataFrame) :
  sorter_ok S ->
  df <> [] ->
  Forall (fun r => exists u, Payment.Usage_pct r = Some u /\ 0 <= u <= 100)
         (analyze_payment_methods S df).
Proof.
  intros Hok N. unfold analyze_payment_methods, add_usage.
  set (t := sort_values Payment.Total_Revenue (payment_agg df)).
  assert (P : Permutation (payment_agg df) t)
    by apply (sort_values_perm S Hok).
  assert (Pos : (0 < sum_nat (map Payment.Order_Count t))%nat).
  { rewrite <- (sum_nat_perm _ _ (Permutation_map Payment.Order_Count P)).
    apply payment_total_positive. exact N. }
  apply Forall_forall. intros r Hr. apply in_map_iff in Hr.
  destruct Hr as [a [<- Ha]]. cbn.
  apply percentage_in_range.
  - unfold Q_of_nat. change 0 with (inject_Z 0). rewrite <- Zle_Qle. lia.
  - unfold Q_of_nat. rewrite <- Zle_Qle. apply Nat2Z.inj_le.
    apply (sum_nat_ge Payment.Order_Count t a Ha).
  - apply Q_of_nat_pos. exact Pos.
Qed.

Lemma payment_usage_in_range_witness :
  Forall (fun r => exists u, Payment.Usage_pct r = Some u /\ 0 <= u <= 100)
         (analyze_payment_methods stable_sorter six_groups).
Proof.
  apply (payment_usage_in_range stable_sorter six_groups stable_sorter_ok).
  discriminate.
Defined.

(* ===================================================================== *)
(** * The report generator *)
(* ===================================================================== *)

Section ArgExtremes.
Context {A : Type} (f : A -> Q).

Lemma argmax_first before b mid t :
  Forall (fun y => f y < f b) before ->
  Forall (fun y => f y <= f b) mid ->
  first_largest f (before ++ b :: mid ++ t) (argmax f b t).
Proof.
  revert before b mid. induction t as [|x t IH]; intros before b mid Hb Hm.
  - cbn. rewrite app_nil_r. exists before, mid. repeat split; assumption.
  - cbn [argmax]. destruct (Qlt_le_dec (f b) (f x)) as [L|L].
    + replace (before ++ b :: mid ++ x :: t)
        with ((before ++ b :: mid) ++ x :: [] ++ t)
        by (rewrite <- app_assoc; reflexivity).
      apply IH; [|constructor].
      apply Forall_app. split.
      * eapply Forall_impl; [|exact Hb]. cbn. intros; lra.
      * constructor; [exact L|].
        eapply Forall_impl; [|exact Hm]. cbn. intros; lra.
    + replace (before ++ b :: mid ++ x :: t)
        with (before ++ b :: (mid ++ [x]) ++ t)
        by (rewrite <- app_assoc; reflexivity).
      apply IH; [exact Hb|].
      apply Forall_app. split; [exact Hm|]. constructor; [exact L|constructor].
Qed.

Lemma argmin_first before b mid t :
  Forall (fun y => f b < f y) before ->
  Forall (fun y => f b <= f y) mid ->
  first_smallest f (before ++ b :: mid ++ t) (argmin f b t).
Proof.
  revert before b mid. induction t as [|x t IH]; intros before b mid Hb Hm.
  - cbn. rewrite app_nil_r. exists before, mid. repeat split; assumption.
  - cbn [argmin]. destruct (Qlt_le_dec (f x) (f b)) as [L|L].
    + replace (before ++ b :: mid ++ x :: t)
        with ((before ++ b :: mid) ++ x :: [] ++ t)
        by (rewrite <- app_assoc; reflexivity).
      apply IH; [|constructor].
      apply Forall_app. split.
      * eapply Forall_impl; [|exact Hb]. cbn. intros; lra.
      * constructor; [exact L|].
        eapply Forall_impl; [|exact Hm]. cbn. intros; lra.
    + replace (before ++ b :: mid ++ x :: t)
        with (before ++ b :: (mid ++ [x]) ++ t)
        by (rewrite <- app_assoc; reflexivity).
      apply IH; [exact Hb|].
      apply Forall_app. split; [exact Hm|]. constructor; [exact L|constructor].
Qed.

Lemma idxmax_outcome table :
  match idxmax f table with
  | Ok b => first_largest f table b
  | Raise e => e = ValueError /\ table = []
  end.
Proof.
  destruct table as [|x t]; cbn; [split; reflexivity|].
  apply (argmax_first [] x [] t); constructor.
Qed.

Lemma idxmin_outcome table :
  match idxmin f table with
  | Ok b => first_smallest f table b
  | Raise e => e = ValueError /\ table = []
  end.
Proof.
  destruct table as [|x t]; cbn; [split; reflexivity|].
  apply (argmin_first [] x [] t); constructor.
Qed.

Lemma loc_head (key : A -> string) (r : A) (t : list A) :
  loc key (r :: t) (key r) = Ok r.
Proof. unfold loc. cbn. rewrite String.eqb_refl. reflexivity. Qed.

End ArgExtremes.

Lemma report_outcome
        (df : DataFrame) (kpis : Kpis.t)
        (category_analysis region_analysis : list (Revenue.t string))
        (time_analysis : TimeAnalysis)
        (top_products : list Products.t)
        (demo_analysis : list Demographics.t)
        (payment_analysis : list Payment.t) :
  let ranked_nonempty :=
    category_analysis <> [] /\ region_analysis <> [] /\ top_products <> []
    /\ demo_analysis <> [] /\ payment_analysis <> [] in
  match generate_insights_report df kpis category_analysis region_analysis
                                 time_analysis top_products demo_analysis
                                 payment_analysis with
  | Ok rep =>
      ranked_nonempty /\ monthly time_analysis <> []
      /\ Insights.kpis rep = kpis
      /\ option_map category_key (hd_error category_analysis)
         = Some (top_category rep)
      /\ option_map (fun r => Revenue.Total_Revenue (Revenue.base r))
                    (hd_error category_analysis)
         = Some (top_category_revenue rep)
      /\ option_map category_key (hd_error region_analysis)
         = Some (top_region rep)
      /\ option_map (fun r => Revenue.Total_Revenue (Revenue.base r))
                    (hd_error region_analysis)
         = Some (top_region_revenue rep)
      /\ option_map (fun p => fst (Products.key p)) (hd_error top_products)
         = Some (top_product rep)
      /\ option_map Demographics.key (hd_error demo_analysis)
         = Some (top_age_group rep)
      /\ option_map payment_key (hd_error payment_analysis)
         = Some (top_payment rep)
  | Raise IndexError => ~ ranked_nonempty
  | Raise ValueError => ranked_nonempty /\ monthly time_analysis = []
  | Raise KeyError => False
  end.
Proof.
  unfold generate_insights_report.
  destruct category_analysis as [|c ct]; cbn; [tauto|].
  rewrite (loc_head category_key c ct). cbn.
  destruct region_analysis as [|g gt]; cbn; [tauto|].
  rewrite (loc_head category_key g gt). cbn.
  destruct top_products as [|p pt]; cbn; [tauto|].
  destruct demo_analysis as [|a at_]; cbn; [tauto|].
  rewrite (loc_head Demographics.key a at_). cbn.
  destruct payment_analysis as [|m mt]; cbn; [tauto|].
  rewrite (loc_head payment_key m mt). cbn.
  destruct (monthly time_analysis) as [|x xt]; cbn.
  - repeat split; discriminate.
  - repeat split; discriminate.
Qed.

(** X14. The report generator never raises [KeyError]: each label it
    looks up is read off the first row of the same table.  It raises
    [IndexError] exactly when one of the five ranked tables is empty,
    [ValueError] exactly when those are not but the monthly table is, and
    otherwise returns a report whose top entries are the first rows of
    the tables it was given. *)
Theorem insights_report_outcome
        (df : DataFrame) (kpis : Kpis.t)
        (category_analysis region_analysis : list (Revenue.t string))
        (time_analysis : TimeAnalysis)
        (top_products : list Products.t)
        (demo_analysis : list Demographics.t)
        (payment_analysis : list Payment.t) :
  let ranked_nonempty :=
    category_analysis <> [] /\ region_analysis <> [] /\ top_products <> []
    /\ demo_analysis <> [] /\ payment_analysis <> [] in
  match generate_insights_report df kpis category_analysis region_analysis
                                 time_analysis top_products demo_analysis
                                 payment_analysis with
  | Ok rep =>
      ranked_nonempty /\ monthly time_analysis <> []
      /\ Insights.kpis rep = kpis
      /\ option_map category_key (hd_error category_analysis)
         = Some (top_category rep)
      /\ option_map (fun r => Revenue.Total_Revenue (Revenue.base r))
                    (hd_error category_analysis)
         = Some (top_category_revenue rep)
      /\ option_map category_key (hd_error region_analysis)
         = Some (top_region rep)
      /\ option_map (fun r => Revenue.Total_Revenue (Revenue.base r))
                    (hd_error region_analysis)
         = Some (top_region_revenue rep)
      /\ option_map (fun p => fst (Products.key p)) (hd_error top_products)
         = Some (top_product rep)
      /\ option_map Demographics.key (hd_error demo_analysis)
         = Some (top_age_group rep)
      /\ option_map payment_key (hd_error payment_analysis)
         = Some (top_payment rep)
  | Raise IndexError => ~ ranked_nonempty
  | Raise ValueError => ranked_nonempty /\ monthly time_analysis = []
  | Raise KeyError => False
  end.
Proof.
  apply report_outcome.
Qed.

(** X15. The seasonal entries of a report: the best month is the first
    row of the monthly table with the largest revenue and the worst month
    the first row with the smallest, so among months of equal revenue the
    earliest is reported. *)
Theorem report_months_are_first_extremes
        (df : DataFrame) (kpis : Kpis.t)
        (category_analysis region_analysis : list (Revenue.t string))
        (time_analysis : TimeAnalysis)
        (top_products : list Products.t)
        (demo_analysis : list Demographics.t)
        (payment_analysis : list Payment.t) :
  match generate_insights_report df kpis category_analysis region_analysis
                                 time_analysis top_products demo_analysis
                                 payment_analysis with
  | Ok rep =>
      exists best worst,
        first_largest Period.Revenue (monthly time_analysis) best
        /\ best_month_idx rep = Period.key best
        /\ best_month_revenue rep = Period.Revenue best
        /\ first_smallest Period.Revenue (monthly time_analysis) worst
        /\ worst_month_idx rep = Period.key worst
        /\ worst_month_revenue rep = Period.Revenue worst
  | Raise _ => True
  end.
Proof.
  unfold generate_insights_report.
  destruct category_analysis as [|c ct]; cbn; [exact I|].
  rewrite (loc_head category_key c ct). cbn.
  destruct region_analysis as [|g gt]; cbn; [exact I|].
  rewrite (loc_head category_key g gt). cbn.
  destruct top_products as [|p pt]; cbn; [exact I|].
  destruct demo_analysis as [|a at_]; cbn; [exact I|].
  rewrite (loc_head Demographics.key a at_). cbn.
  destruct payment_analysis as [|m mt]; cbn; [exact I|].
  rewrite (loc_head payment_key m mt). cbn.
  pose proof (idxmax_outcome Period.Revenue (monthly time_analysis)) as Hmax.
  pose proof (idxmin_outcome Period.Revenue (monthly time_analysis)) as Hmin.
  destruct (monthly time_analysis) as [|x xt]; cbn; [exact I|].
  cbn in Hmax, Hmin.
  exists (argmax Period.Revenue x xt), (argmin Period.Revenue x xt).
  repeat split; assumption.
Qed.

(* ===================================================================== *)
(** * The analysis pipeline *)
(* ===================================================================== *)

Section PipelineFacts.
Context (S : Sorter) (Hok : sorter_ok S).

Lemma groupby_nonempty {K} `{Key K} (by_ : Row -> K) df :
  df <> [] -> groupby by_ df <> [].
Proof.
  intros N E. pose proof (groupby_count_total by_ df) as T.
  rewrite E in T. cbn in T. destruct df; [contradiction|discriminate].
Qed.

Lemma nonempty_length {A} (l : list A) : (0 < length l)%nat -> l <> [].
Proof. destruct l; cbn; [lia|discriminate]. Qed.

Lemma length_nonempty {A} (l : list A) : l <> [] -> (0 < length l)%nat.
Proof. destruct l; cbn; [contradiction|lia]. Qed.

Lemma revenue_table_nonempty (by_ : Row -> string) df :
  df <> [] ->
  add_revenue_share (sort_values Revenue.Total_Revenue (revenue_agg by_ df))
  <> [].
Proof.
  intros N. apply nonempty_length. unfold add_revenue_share.
  rewrite length_map, (sort_values_length S Hok). unfold revenue_agg.
  rewrite length_map. apply length_nonempty, groupby_nonempty. exact N.
Qed.

Lemma top_products_nonempty df top_n :
  df <> [] -> (0 < top_n)%Z -> analyze_top_products S df top_n <> [].
Proof.
  intros N Hn. apply nonempty_length. unfold analyze_top_products.
  rewrite head_nonneg_length by lia. rewrite (sort_values_length S Hok).
  unfold products_agg. rewrite length_map.
  pose proof (length_nonempty _ (groupby_nonempty
                                   (fun r => (Product_Name r, Category r))
                                   df N)).
  lia.
Qed.

Lemma dropna_age_all df :
  Forall (fun r => Customer_Age_Group r <> None) df -> dropna_age df = df.
Proof.
  unfold dropna_age. induction 1 as [|r t Hr _ IH]; cbn; [reflexivity|].
  destruct (Customer_Age_Group r); [|contradiction]. rewrite IH.
  reflexivity.
Qed.

Lemma demographics_nonempty df :
  df <> [] -> Forall (fun r => Customer_Age_Group r <> None) df ->
  analyze_customer_demographics S df <> [].
Proof.
  intros N F. apply nonempty_length. unfold analyze_customer_demographics.
  rewrite (sort_values_length S Hok), length_map, (dropna_age_all df F).
  apply length_nonempty, groupby_nonempty. exact N.
Qed.

Lemma payment_table_nonempty df :
  df <> [] -> analyze_payment_methods S df <> [].
Proof.
  intros N. apply nonempty_length.
  unfold analyze_payment_methods, add_usage.
  rewrite length_map, (sort_values_length S Hok). unfold payment_agg.
  rewrite length_map. apply length_nonempty, groupby_nonempty. exact N.
Qed.

Lemma analyze_by_time_cleaned df :
  Forall (fun r => derived r = Some (derive r)) df ->
  exists ta, analyze_by_time df = Ok ta
             /\ (df <> [] -> monthly ta <> []).
Proof.
  intros F. unfold analyze_by_time.
  pose proof (with_derived_outcome df) as W.
  destruct (with_derived df) as [l|e]; cbn.
  - eexists. split; [reflexivity|]. cbn. intros N.
    apply nonempty_length. unfold period_agg. rewrite length_map.
    apply length_nonempty, groupby_nonempty. exact N.
  - exfalso. destruct W as [_ W]. apply Exists_exists in W.
    destruct W as [r [Hr E]]. rewrite Forall_forall in F.
    rewrite (F r Hr) in E. discriminate.
Qed.

Lemma first_row_is_largest (t : list (Revenue.t string)) (v : Q) :
  revenue_column_descending t ->
  option_map (fun r => Revenue.Total_Revenue (Revenue.base r)) (hd_error t)
  = Some v ->
  Forall (fun r => Revenue.Total_Revenue (Revenue.base r) <= v) t.
Proof.
  intros Hs E. destruct t as [|x t]; [constructor|].
  cbn in E. injection E as <-.
  inversion Hs as [|? ? _ Hall]; subst.
  constructor; [lra|exact Hall].
Qed.

End PipelineFacts.

(** X16. The demographics table counts the rows that have an age group,
    which on a frame without blank age groups is every order; it has one
    row per age group that occurs, and in each row the number of unique
    customers is at least 1 and at most the number of orders. *)
Theorem demographics_table_counts (S : Sorter) (df : DataFrame) :
  sorter_ok S ->
  let table := analyze_customer_demographics S df in
  sum_nat (map Demographics.Total_Orders table) = length (dropna_age df)
  /\ (Forall (fun r => Customer_Age_Group r <> None) df ->
      sum_nat (map Demographics.Total_Orders table)
      = Kpis.Total_Orders (calculate_kpis df))
  /\ (forall k, In k (map Demographics.key table)
                <-> exists r, In r df /\ Customer_Age_Group r = Some k)
  /\ Forall (fun r => (0 < Demographics.Unique_Customers r
                       <= Demographics.Total_Orders r)%nat) table.
Proof.
  intros Hok table. unfold table, analyze_customer_demographics.
  set (agg := map _ (groupby age_key (dropna_age df))).
  pose proof (sort_values_perm S Hok Demographics.Total_Revenue agg) as P.
  assert (T : sum_nat (map Demographics.Total_Orders
                           (sort_values Demographics.Total_Revenue agg))
              = length (dropna_age df)).
  { rewrite <- (sum_nat_perm _ _ (Permutation_map Demographics.Total_Orders P)).
    unfold agg. rewrite map_map. cbn. unfold count.
    rewrite <- (groupby_count_total age_key (dropna_age df)). f_equal.
    apply map_ext. intros g. apply length_map. }
  split; [exact T|]. split; [|split].
  - intros F. rewrite T, (dropna_age_all df F). reflexivity.
  - intros k.
    assert (PK : Permutation (map fst (groupby age_key (dropna_age df)))
                             (map Demographics.key
                                  (sort_values Demographics.Total_Revenue agg))).
    { rewrite <- (Permutation_map Demographics.key P).
      unfold agg. rewrite map_map. cbn. reflexivity. }
    transitivity (In k (map fst (groupby age_key (dropna_age df)))).
    + split; apply Permutation_in; [symmetry|]; exact PK.
    + rewrite groupby_keys_In. unfold dropna_age, age_key.
      split.
      * intros [r [Hr E]]. apply filter_In in Hr. destruct Hr as [Hr A].
        exists r. split; [exact Hr|].
        destruct (Customer_Age_Group r); [congruence|discriminate].
      * intros [r [Hr E]]. exists r. rewrite filter_In, E. tauto.
  - apply Forall_forall. intros x Hx.
    apply (sort_values_In S Hok) in Hx. unfold agg in Hx.
    apply in_map_iff in Hx. destruct Hx as [[k rows] [<- Hg]]. cbn.
    destruct (groupby_rows age_key _ k rows Hg) as [_ Hne].
    unfold count. rewrite length_map. split.
    + destruct rows as [|r t]; [contradiction|]. cbn. lia.
    + rewrite <- (length_map Customer_ID rows). apply nunique_le.
Qed.

Lemma demographics_table_counts_witness :
  sum_nat (map Demographics.Total_Orders
               (analyze_customer_demographics stable_sorter books_frame))
  = 5%nat.
Proof.
  pose proof (demographics_table_counts stable_sorter books_frame
                                        stable_sorter_ok) as [H _].
  exact H.
Defined.



(* ===================================================================== *)
(** * The dashboard *)
(* ===================================================================== *)

Import Streamlit_app.

Section DashboardFacts.

Lemma date_leb_refl a : date_leb a a = true.
Proof.
  unfold date_leb.
  rewrite (proj2 (key_compare_eq (date_key a) (date_key a)) eq_refl).
  reflexivity.
Qed.

Lemma date_leb_total a b : date_leb a b = false -> date_leb b a = true.
Proof.
  unfold date_leb.
  rewrite (key_compare_antisym (date_key a) (date_key b)).
  destruct (key_compare (date_key a) (date_key b)); cbn;
    intros E; try discriminate; reflexivity.
Qed.

Lemma date_leb_trans a b c :
  date_leb a b = true -> date_leb b c = true -> date_leb a c = true.
Proof.
  unfold date_leb.
  destruct (key_compare (date_key a) (date_key b)) eqn:E1;
    [| |discriminate];
    destruct (key_compare (date_key b) (date_key c)) eqn:E2;
    try discriminate; intros _ _.
  - apply key_compare_eq in E1. rewrite E1, E2. reflexivity.
  - apply key_compare_eq in E1. rewrite E1, E2. reflexivity.
  - apply key_compare_eq in E2. rewrite <- E2, E1. reflexivity.
  - pose proof (key_lt_trans _ _ _ E1 E2) as L. unfold key_lt in L.
    rewrite L. reflexivity.
Qed.

Lemma min_fold_bound t m0 :
  let res := fold_left (fun m x => if date_leb m (Order_Date x) then m
                                   else Order_Date x) t m0 in
  date_leb res m0 = true
  /\ Forall (fun x => date_leb res (Order_Date x) = true) t.
Proof.
  revert m0. induction t as [|x t IH]; intros m0; cbn.
  - split; [apply date_leb_refl|constructor].
  - destruct (date_leb m0 (Order_Date x)) eqn:E.
    + destruct (IH m0) as [H1 H2]. split; [exact H1|].
      constructor; [|exact H2]. eapply date_leb_trans; eassumption.
    + destruct (IH (Order_Date x)) as [H1 H2]. split.
      * eapply date_leb_trans; [exact H1|]. apply date_leb_total. exact E.
      * constructor; assumption.
Qed.

Lemma max_fold_bound t m0 :
  let res := fold_left (fun m x => if date_leb (Order_Date x) m then m
                                   else Order_Date x) t m0 in
  date_leb m0 res = true
  /\ Forall (fun x => date_leb (Order_Date x) res = true) t.
Proof.
  revert m0. induction t as [|x t IH]; intros m0; cbn.
  - split; [apply date_leb_refl|constructor].
  - destruct (date_leb (Order_Date x) m0) eqn:E.
    + destruct (IH m0) as [H1 H2]. split; [exact H1|].
      constructor; [|exact H2]. eapply date_leb_trans; eassumption.
    + destruct (IH (Order_Date x)) as [H1 H2]. split.
      * eapply date_leb_trans; [|exact H1]. apply date_leb_total. exact E.
      * constructor; assumption.
Qed.

Lemma min_date_bound df m :
  min_date df = Some m ->
  Forall (fun r => date_leb m (Order_Date r) = true) df.
Proof.
  destruct df as [|r t]; cbn; [discriminate|]. intros E. injection E as <-.
  destruct (min_fold_bound t (Order_Date r)) as [H1 H2].
  constructor; assumption.
Qed.

Lemma max_date_bound df m :
  max_date df = Some m ->
  Forall (fun r => date_leb (Order_Date r) m = true) df.
Proof.
  destruct df as [|r t]; cbn; [discriminate|]. intros E. injection E as <-.
  destruct (max_fold_bound t (Order_Date r)) as [H1 H2].
  constructor; assumption.
Qed.

Lemma insert_sorted_In x y l : In y (insert_sorted x l) <-> x = y \/ In y l.
Proof.
  induction l as [|a t IH]; cbn [insert_sorted In]; [tauto|].
  destruct (key_compare x a); cbn [In]; rewrite ?IH; tauto.
Qed.

Lemma sorted_In x l : In x (sorted l) <-> In x l.
Proof.
  unfold sorted. induction l as [|a t IH]; cbn; [tauto|].
  rewrite insert_sorted_In, IH. tauto.
Qed.

Lemma isin_options (col : Row -> string) df r :
  In r df -> isin (col r) (options col df) = true.
Proof.
  intros Hr. unfold isin, options. apply existsb_exists.
  exists (col r). split; [|apply String.eqb_refl].
  apply sorted_In, unique_In, in_map. exact Hr.
Qed.

Lemma filter_all {A} (p : A -> bool) (l : list A) :
  (forall x, In x l -> p x = true) -> filter p l = l.
Proof.
  induction l as [|x t IH]; intros H; cbn; [reflexivity|].
  rewrite (H x (or_introl eq_refl)), IH; [reflexivity|].
  intros y Hy. apply H. right. exact Hy.
Qed.

Lemma filter_subseq {A} (p : A -> bool) (l : list A) : Subseq (filter p l) l.
Proof.
  induction l as [|x t IH]; cbn; [constructor|].
  destruct (p x); constructor; exact IH.
Qed.

Lemma build_filters_unselected df (w : Widgets) :
  df <> [] ->
  (date_range w = None
   \/ exists a b, min_date df = Some a /\ max_date df = Some b
                  /\ date_range w = Some (a, b)) ->
  categories w = options Category df ->
  regions w = options Region df ->
  payments w = options Payment_Method df ->
  build_filters w df = Some df.
Proof.
  intros N Hd Hc Hr Hp. unfold build_filters.
  destruct (min_date df) as [a|] eqn:Ea;
    [|destruct df; [contradiction|discriminate]].
  destruct (max_date df) as [b|] eqn:Eb;
    [|destruct df; [contradiction|discriminate]].
  assert (E : match date_range w with
              | Some chosen => chosen
              | None => (a, b)
              end = (a, b)).
  { destruct Hd as [->|[a' [b' [A [B ->]]]]]; [reflexivity|congruence]. }
  rewrite E. f_equal. apply filter_all. intros r Hr'.
  pose proof (min_date_bound df a Ea) as Hmin.
  pose proof (max_date_bound df b Eb) as Hmax.
  rewrite Forall_forall in Hmin, Hmax.
  rewrite (Hmin r Hr'), (Hmax r Hr'), Hc, Hr, Hp.
  rewrite !isin_options by exact Hr'. reflexivity.
Qed.

Lemma has_required_cols_Forall df :
  has_required_cols df = true <-> Forall (fun r => derived r <> None) df.
Proof.
  unfold has_required_cols. rewrite forallb_forall, Forall_forall.
  split; intros H r Hr; specialize (H r Hr);
    destruct (derived r); congruence.
Qed.

Lemma prepare_data_has_cols df : has_required_cols (prepare_data df) = true.
Proof.
  unfold prepare_data. destruct (has_required_cols df) eqn:E; [exact E|].
  apply has_required_cols_Forall.
  eapply Forall_impl; [|apply cleaned_rows_derived].
  cbn. intros r Hr. congruence.
Qed.

Lemma prepare_data_nil_iff df : prepare_data df = [] <-> df = [].
Proof.
  unfold prepare_data. destruct (has_required_cols df); [tauto|].
  apply clean_nil_iff.
Qed.

End DashboardFacts.

(** X18. Whatever frame the dashboard loads, the frame it works on has
    the derived columns: a frame that has them is taken as it is (no
    cleaning step runs on it), any other is cleaned first.  So the time
    analysis never fails on it, and preparing loses all rows only if
    there were none. *)
Theorem prepare_data_has_derived_columns (df : DataFrame) :
  has_required_cols (prepare_data df) = true
  /\ (has_required_cols df = true -> prepare_data df = df)
  /\ (has_required_cols df = false
      -> prepare_data df = fst (clean_sales_data df))
  /\ (exists ta, analyze_by_time (prepare_data df) = Ok ta)
  /\ (prepare_data df = [] <-> df = []).
Proof.
  split; [apply prepare_data_has_cols|].
  split; [unfold prepare_data; intros ->; reflexivity|].
  split; [unfold prepare_data; intros ->; reflexivity|].
  split; [|apply prepare_data_nil_iff].
  pose proof (prepare_data_has_cols df) as H.
  apply has_required_cols_Forall in H. unfold analyze_by_time.
  pose proof (with_derived_outcome (prepare_data df)) as W.
  destruct (with_derived (prepare_data df)) as [l|e]; cbn.
  - eexists. reflexivity.
  - exfalso. destruct W as [_ W]. apply Exists_exists in W.
    destruct W as [r [Hr E]]. rewrite Forall_forall in H.
    exact (H r Hr E).
Qed.

Lemma prepare_data_has_derived_columns_witness :
  prepare_data six_groups = six_groups
  /\ prepare_data books_frame = fst (clean_sales_data books_frame).
Proof.
  pose proof (prepare_data_has_derived_columns six_groups) as [_ [H _]].
  pose proof (prepare_data_has_derived_columns books_frame) as [_ [_ [G _]]].
  split; [apply H|apply G]; reflexivity.
Defined.

(** X19. With the sidebar untouched the filter keeps the whole frame: the
    default date range spans the earliest to the latest order (also when
    the date input returned no pair), and each multiselect defaults to
    every value of its column.  In general the filtered frame is the
    input with rows left out, never reordered. *)
Theorem build_filters_default_keeps_all (df : DataFrame) :
  df <> [] ->
  build_filters (default_widgets df) df = Some df
  /\ build_filters (mkWidgets None (options Category df) (options Region df)
                              (options Payment_Method df)) df = Some df
  /\ forall w, exists filtered,
        build_filters w df = Some filtered /\ Subseq filtered df.
Proof.
  intros N. split; [|split].
  - apply build_filters_unselected; try reflexivity; [exact N|].
    right. unfold default_widgets. cbn.
    destruct df as [|r t]; [contradiction|]. cbn.
    eexists _, _. repeat split.
  - apply build_filters_unselected; try reflexivity; [exact N|].
    left. reflexivity.
  - intros w. unfold build_filters.
    destruct df as [|r t]; [contradiction|]. cbn [min_date max_date].
    destruct (match date_range w with
              | Some chosen => chosen
              | None => _
              end) as [s e].
    eexists. split; [reflexivity|]. apply filter_subseq.
Qed.

Lemma build_filters_default_keeps_all_witness :
  build_filters (default_widgets six_groups) six_groups = Some six_groups.
Proof.
  apply (build_filters_default_keeps_all six_groups). discriminate.
Defined.

(** X20. The dashboard computes KPIs only on a frame with at least one
    row, so the averages it shows are always numbers; and with the
    sidebar untouched it shows the KPIs of the whole prepared frame. *)
Theorem dashboard_kpis_are_defined (w : Widgets) (raw_df : DataFrame) :
  match Streamlit_app.main w raw_df with
  | Some kpis =>
      (0 < Kpis.Total_Orders kpis)%nat
      /\ (exists filtered,
             build_filters w (prepare_data raw_df) = Some filtered
             /\ kpis = calculate_kpis filtered)
      /\ exists aov,
          Kpis.Average_Order_Value kpis = Some aov
          /\ aov * Q_of_nat (Kpis.Total_Orders kpis)
             == Kpis.Total_Revenue kpis
  | None =>
      raw_df = [] \/ build_filters w (prepare_data raw_df) = Some []
  end
  /\ (raw_df <> [] ->
      Streamlit_app.main (default_widgets (prepare_data raw_df)) raw_df
      = Some (calculate_kpis (prepare_data raw_df))).
Proof.
  split.
  - unfold Streamlit_app.main.
    destruct (build_filters w (prepare_data raw_df)) as [[|r t]|] eqn:E.
    + right. reflexivity.
    + split; [cbn; lia|]. split; [eexists; split; reflexivity|].
      destruct (mean_nonempty (map Total_Amount (r :: t))) as [a [E1 P1]];
        [discriminate|].
      exists a. split; [exact E1|]. rewrite length_map in P1. exact P1.
    + left. unfold build_filters in E.
      destruct (prepare_data raw_df) as [|r t] eqn:P.
      * apply prepare_data_nil_iff. exact P.
      * cbn [min_date max_date] in E.
        destruct (match date_range w with
                  | Some chosen => chosen
                  | None => _
                  end) in E. discriminate.
  - intros N. unfold Streamlit_app.main.
    assert (NP : prepare_data raw_df <> []).
    { intros E. apply (proj1 (prepare_data_nil_iff _)) in E. contradiction. }
    rewrite (build_filters_unselected (prepare_data raw_df)
               (default_widgets (prepare_data raw_df)) NP);
      try reflexivity.
    + destruct (prepare_data raw_df); [contradiction|reflexivity].
    + right. unfold default_widgets. cbn.
      destruct (prepare_data raw_df) as [|r t]; [contradiction|]. cbn.
      eexists _, _. repeat split.
Qed.

Lemma dashboard_kpis_are_defined_witness :
  Streamlit_app.main (default_widgets (prepare_data books_frame)) books_frame
  = Some (calculate_kpis (prepare_data books_frame)).
Proof.
  pose proof (dashboard_kpis_are_defined
                (default_widgets (prepare_data books_frame)) books_frame)
    as [_ H].
  apply H. discriminate.
Defined.
